(** * redact-sensitive.js: the redaction engine and its configuration

    A shallow embedding of [loadConfig], [isSensitiveKey], [isSensitiveValue]
    and [redactObject] of [src/redact-sensitive.js], with the pieces of the
    JavaScript platform they rest on: exceptions, regular expression tests,
    string lowering and property assignment on a plain object.  Further on:
    [processFile], the dry run preview and [main] of the same script, and
    [normalizeItem], [normalizeVault] and [normalizeData] of
    normalize-data.js. *)

From Stdlib Require Import List String Ascii Bool Arith NArith ZArith Lia DecimalString.
Import ListNotations.
Local Open Scope string_scope.
Local Open Scope list_scope.

Set Implicit Arguments.

(* ===================================================================== *)
(** ** Exceptions *)
(* ===================================================================== *)

(** The exceptions the modelled code can meet. *)
Inductive Error : Type :=
| TypeError      (* calling a method a value does not have *)
| SyntaxError    (* [JSON.parse] on malformed text *)
| SystemError.   (* [fs.readFileSync] on a file that cannot be read *)

(** A JavaScript completion: a normal value or a thrown exception. *)
Inductive Result (A : Type) : Type :=
| Ok (a : A)
| Throw (e : Error).
Arguments Ok {A} a.
Arguments Throw {A} e.

Definition bind {A B : Type} (m : Result A) (k : A -> Result B) : Result B :=
  match m with
  | Ok a => k a
  | Throw e => Throw e
  end.

Notation "x <- m ;; k" := (bind m (fun x => k))
  (at level 61, m at next level, right associativity).

(** [Array.prototype.map] with a callback that may throw: the first exception
    ends the traversal. *)
Definition mapM {A B : Type} (f : A -> Result B) : list A -> Result (list B) :=
  fix go (l : list A) : Result (list B) :=
    match l with
    | [] => Ok []
    | a :: l' => b <- f a ;; bs <- go l' ;; Ok (b :: bs)
    end.

(** A [for ... of] loop that threads one mutable local through its body. *)
Definition foldM {A S : Type} (body : S -> A -> Result S) : list A -> S -> Result S :=
  fix go (l : list A) (s : S) : Result S :=
    match l with
    | [] => Ok s
    | a :: l' => s' <- body s a ;; go l' s'
    end.

(** [Array.prototype.some] with a predicate that may throw: stops at the first
    element the predicate accepts, or at the first exception. *)
Definition someM {A : Type} (p : A -> Result bool) : list A -> Result bool :=
  fix go (l : list A) : Result bool :=
    match l with
    | [] => Ok false
    | a :: l' => b <- p a ;; if b then Ok true else go l'
    end.

(* ===================================================================== *)
(** ** Strings *)
(* ===================================================================== *)

(** Strings are sequences of 8-bit characters.  The engine compares ASCII
    text; [toLowerCase] maps [A]-[Z] to [a]-[z] and leaves every other
    character as it is. *)
Definition lowerChar (c : ascii) : ascii :=
  let n := N_of_ascii c in
  if ((65 <=? n) && (n <=? 90))%N then ascii_of_N (n + 32) else c.

Definition upperChar (c : ascii) : ascii :=
  let n := N_of_ascii c in
  if ((97 <=? n) && (n <=? 122))%N then ascii_of_N (n - 32) else c.

Fixpoint toLowerCase (s : string) : string :=
  match s with
  | EmptyString => EmptyString
  | String c s' => String (lowerChar c) (toLowerCase s')
  end.

(** [String.prototype.includes]: [searchString] occurs somewhere in [s]. *)
Fixpoint includes (s searchString : string) : bool :=
  String.prefix searchString s ||
  match s with
  | EmptyString => false
  | String _ s' => includes s' searchString
  end.

(* ===================================================================== *)
(** ** Regular expressions *)
(* ===================================================================== *)

Module RegExp.

(** The pattern syntax the script's regular expression literals use. *)
Inductive Pattern : Type :=
| Empty                                        (* the empty pattern *)
| AssertStart                                  (* ^ *)
| AssertEnd                                    (* $ *)
| CharClass (ranges : list (ascii * ascii))    (* [a-f0-9], \d, or one character *)
| Seq (a b : Pattern)                          (* ab *)
| Alt (a b : Pattern)                          (* a|b *)
| Repeat (min max : nat) (a : Pattern).        (* a{min,max} *)

(** A regular expression object: its pattern and its [i] flag.  No literal
    of the script carries the [g] or [y] flag, so [lastIndex] stays 0 and
    [test] has no state. *)
Record t : Type := mk { source : Pattern; ignoreCase : bool }.

Definition chr (c : ascii) : Pattern := CharClass [(c, c)].
Definition digit : Pattern := CharClass [("0", "9")]%char.

(** A run of literal characters. *)
Fixpoint lit (s : string) : Pattern :=
  match s with
  | EmptyString => Empty
  | String c EmptyString => chr c
  | String c s' => Seq (chr c) (lit s')
  end.

Fixpoint seq (ps : list Pattern) : Pattern :=
  match ps with
  | [] => Empty
  | [p] => p
  | p :: ps' => Seq p (seq ps')
  end.

(** [Canonicalize]: with the [i] flag characters are compared after
    upper-casing, otherwise as they are. *)
Definition canonicalize (ic : bool) (c : ascii) : ascii :=
  if ic then upperChar c else c.

Definition inRange (c : ascii) (r : ascii * ascii) : bool :=
  ((N_of_ascii (fst r) <=? N_of_ascii c) && (N_of_ascii c <=? N_of_ascii (snd r)))%N.

(** All characters of the 8-bit alphabet. *)
Definition alphabet : list ascii := map ascii_of_nat (List.seq 0 256).

(** [CharacterSetMatcher]: [ch] is accepted when some member [a] of the
    class has the same canonical form. *)
Definition classAccepts (ic : bool) (ranges : list (ascii * ascii)) (ch : ascii) : bool :=
  if ic then
    existsb (fun a => existsb (inRange a) ranges
                      && Ascii.eqb (canonicalize ic a) (canonicalize ic ch)) alphabet
  else existsb (inRange ch) ranges.

(** A continuation receives the index a match has reached; a matcher
    tries to match at an index and hands every end index it can reach to
    its continuation, until one is accepted. *)
Definition Continuation : Type := nat -> bool.
Definition Matcher : Type := nat -> Continuation -> bool.

(** [RepeatMatcher] for a greedy quantifier: an iteration that may be
    skipped and consumes nothing is not taken. *)
Fixpoint repeatMatcher (m : Matcher) (min max : nat) (x : nat) (c : Continuation)
         {struct max} : bool :=
  match max with
  | 0 => c x
  | S max' =>
      let d : Continuation := fun y =>
        if ((min =? 0) && (y =? x))%nat then false
        else repeatMatcher m (pred min) max' y c in
      if (min =? 0)%nat
      then (if m x d then true else c x)
      else m x d
  end.

(** The matcher of a pattern over [input]; [ic] is the [i] flag. *)
Fixpoint matcher (ic : bool) (input : list ascii) (p : Pattern) {struct p} : Matcher :=
  match p with
  | Empty => fun x c => c x
  | AssertStart => fun x c => if (x =? 0)%nat then c x else false
  | AssertEnd => fun x c => if (x =? List.length input)%nat then c x else false
  | CharClass ranges => fun x c =>
      match nth_error input x with
      | Some ch => if classAccepts ic ranges ch then c (S x) else false
      | None => false
      end
  | Seq a b => fun x c => matcher ic input a x (fun y => matcher ic input b y c)
  | Alt a b => fun x c =>
      if matcher ic input a x c then true else matcher ic input b x c
  | Repeat min max a => repeatMatcher (matcher ic input a) min max
  end.

(** A match of [re] that starts at index [i] of [s]. *)
Definition matchesAt (re : t) (s : string) (i : nat) : bool :=
  matcher (ignoreCase re) (list_ascii_of_string s) (source re) i (fun _ => true).

(** [RegExp.prototype.test]: with [lastIndex] 0, try every start index from
    0 to the length of the string and report whether one of them matches. *)
Definition test (re : t) (s : string) : bool :=
  existsb (matchesAt re s) (List.seq 0 (S (String.length s))).

(** A match of the whole pattern against the entire string: it starts at
    index 0 and ends at the end of [s].  This is the reading "full-pattern
    test, not a partial search"; the script does not call it. *)
Definition matchesWhole (re : t) (s : string) : bool :=
  let input := list_ascii_of_string s in
  matcher (ignoreCase re) input (source re) 0 (fun y => (y =? List.length input)%nat).

(** A pattern that anchors itself at both ends: [^body$]. *)
Definition anchored (re : t) : Prop :=
  exists body, source re = Seq AssertStart (Seq body AssertEnd).

End RegExp.

(* ===================================================================== *)
(** ** JSON values *)
(* ===================================================================== *)

(** A value as [JSON.parse] produces it.  The engine carries numbers along
    and never looks into them; integers stand for them here.  An object is
    the list of its own enumerable properties in the order [Object.entries]
    visits them. *)
#[local] Unset Elimination Schemes.
Inductive json : Type :=
| JNull
| JBool (b : bool)
| JNumber (n : Z)
| JString (s : string)
| JArray (items : list json)
| JObject (props : list (string * json)).
#[local] Set Elimination Schemes.

(** [value !== null && typeof value === "object"]. *)
Definition isObjectLike (value : json) : bool :=
  match value with
  | JArray _ | JObject _ => true
  | _ => false
  end.

(** The own properties of an object after [obj[key] = v] found [key] among
    them or created it: an existing property keeps its place, a new one goes
    last.  (A new name that is an array index is enumerated among the
    indices, in ascending order; the loop of [redactObject] meets the keys in
    enumeration order, indices first and ascending, so that going last is
    that place.) *)
Fixpoint defineOwn (key : string) (v : json) (o : list (string * json))
  : list (string * json) :=
  match o with
  | [] => [(key, v)]
  | (k, w) :: o' =>
      if String.eqb k key then (k, v) :: o' else (k, w) :: defineOwn key v o'
  end.

(** [redacted[key] = v] on an object that was created by the literal [{}].
    Every key creates or updates an own property, except ["__proto__"]: that
    name is an accessor inherited from [Object.prototype], the assignment runs
    its setter (which replaces the prototype when [v] is an object or null
    and does nothing otherwise), and no own property appears.  What is
    inherited is seen neither by [Object.entries] nor by [JSON.stringify]. *)
Definition assign (key : string) (v : json) (redacted : list (string * json))
  : list (string * json) :=
  if String.eqb key "__proto__" then redacted else defineOwn key v redacted.

(** [obj[key]] restricted to own properties. *)
Fixpoint getOwn (key : string) (o : list (string * json)) : option json :=
  match o with
  | [] => None
  | (k, w) :: o' => if String.eqb k key then Some w else getOwn key o'
  end.

(** The names of the own properties, in order. *)
Definition keys (o : list (string * json)) : list string := map fst o.

(* ===================================================================== *)
(** ** Configuration *)
(* ===================================================================== *)

(** An element of [sensitivePatterns]: a regular expression object, as the
    literals of [DEFAULT_CONFIG] are, or a string, which is all a JSON
    configuration file can hold. *)
Inductive SensitivePattern : Type :=
| Compiled (re : RegExp.t)
| Source (text : string).

Record Config : Type := mkConfig {
  sensitiveKeys : list string;
  sensitiveProperties : list string;
  sensitivePatterns : list SensitivePattern;
  redactionText : string;
  preserveKeys : bool
}.

Module Defaults.
Import RegExp.

Definition bothEnds (body : Pattern) : Pattern := Seq AssertStart (Seq body AssertEnd).
Definition hex : Pattern := CharClass [("a", "f"); ("0", "9")]%char.
Definition times (n : nat) (p : Pattern) : Pattern := Repeat n n p.

(** [/^\d{4,6}$/] *)
Definition pinLike : RegExp.t := mk (bothEnds (Repeat 4 6 digit)) false.

(** [/^[a-f0-9]{8}-[a-f0-9]{4}-[a-f0-9]{4}-[a-f0-9]{4}-[a-f0-9]{12}$/i] *)
Definition uuid : RegExp.t :=
  mk (bothEnds (seq [times 8 hex; chr "-"; times 4 hex; chr "-"; times 4 hex;
                     chr "-"; times 4 hex; chr "-"; times 12 hex])) true.

(** [/^testpass123!$/i] *)
Definition examplePassword : RegExp.t := mk (bothEnds (lit "testpass123!")) true.

(** [/^fakepassword456$/i] *)
Definition examplePasswordHistory : RegExp.t := mk (bothEnds (lit "fakepassword456")) true.

(** [/^test@example\.com$/i] *)
Definition exampleEmail : RegExp.t := mk (bothEnds (lit "test@example.com")) true.
End Defaults.

Definition DEFAULT_CONFIG : Config := {|
  sensitiveKeys :=
    ["password"; "pin"; "email"; "uuid"; "secret"; "token"; "key";
     "credential"; "auth"; "login"; "passcode"; "security"];
  sensitiveProperties :=
    ["password"; "pin"; "emailAddress"; "uuid"; "secretKey"; "accessToken";
     "refreshToken"; "apiKey"; "privateKey"; "creditCardNumber"; "cvv"; "ssn";
     "socialSecurityNumber"];
  sensitivePatterns :=
    [Compiled Defaults.pinLike; Compiled Defaults.uuid;
     Compiled Defaults.examplePassword; Compiled Defaults.examplePasswordHistory;
     Compiled Defaults.exampleEmail];
  redactionText := "[REDACTED]";
  preserveKeys := false
|}.

(** A parsed configuration file, read through the five fields the script
    looks at, with the types its help text documents for them: lists of
    strings, a string, a boolean.  [None] is a field the file does not have.
    Other fields of the file are never read. *)
Record UserConfig : Type := mkUserConfig {
  userSensitiveKeys : option (list string);
  userSensitiveProperties : option (list string);
  userSensitivePatterns : option (list string);
  userRedactionText : option string;
  userPreserveKeys : option bool
}.

Definition override {A : Type} (base : A) (user : option A) : A :=
  match user with
  | Some a => a
  | None => base
  end.

(** [{ ...base, ...userConfig }]: the fields of [userConfig] are copied over
    those of [base], as they are. *)
Definition spread (base : Config) (userConfig : UserConfig) : Config := {|
  sensitiveKeys := override (sensitiveKeys base) (userSensitiveKeys userConfig);
  sensitiveProperties := override (sensitiveProperties base) (userSensitiveProperties userConfig);
  sensitivePatterns :=
    override (sensitivePatterns base) (option_map (map Source) (userSensitivePatterns userConfig));
  redactionText := override (redactionText base) (userRedactionText userConfig);
  preserveKeys := override (preserveKeys base) (userPreserveKeys userConfig)
|}.

Section LoadConfig.

(** [fs.readFileSync(path, "utf8")]: the text of the file, or an exception. *)
Variable readFileSync : string -> Result string.

(** [JSON.parse] on the text of a configuration file: the parsed document,
    or an exception when the text is not JSON. *)
Variable JSON_parse : string -> Result UserConfig.

(** [loadConfig(configPath)].  [None] is an argument that was not given;
    it and the empty string are the falsy paths. *)
Definition loadConfig (configPath : option string) : Config :=
  match configPath with
  | None => DEFAULT_CONFIG
  | Some "" => DEFAULT_CONFIG
  | Some path =>
      match (configData <- readFileSync path ;;
             userConfig <- JSON_parse configData ;;
             Ok (spread DEFAULT_CONFIG userConfig)) with
      | Ok config => config
      | Throw _ => DEFAULT_CONFIG
      end
  end.

End LoadConfig.

(** [main]: [if (preserveKeys) config.preserveKeys = true], the
    [--preserve-keys] flag applied after loading. *)
Definition withPreserveKeysFlag (flag : bool) (config : Config) : Config :=
  if flag then
    {| sensitiveKeys := sensitiveKeys config;
       sensitiveProperties := sensitiveProperties config;
       sensitivePatterns := sensitivePatterns config;
       redactionText := redactionText config;
       preserveKeys := true |}
  else config.

(* ===================================================================== *)
(** ** The redaction engine *)
(* ===================================================================== *)

(** [isSensitiveKey(key, config)]. *)
Definition isSensitiveKey (key : string) (config : Config) : bool :=
  let keyLower := toLowerCase key in
  if existsb (String.eqb keyLower) (sensitiveProperties config) then true
  else existsb (fun pattern => includes keyLower (toLowerCase pattern))
               (sensitiveKeys config).

(** [pattern.test(value)]: a string has no method [test]. *)
Definition patternTest (pattern : SensitivePattern) (value : string) : Result bool :=
  match pattern with
  | Compiled re => Ok (RegExp.test re value)
  | Source _ => Throw TypeError
  end.

(** [isSensitiveValue(value, config)]. *)
Definition isSensitiveValue (value : json) (config : Config) : Result bool :=
  match value with
  | JString s => someM (fun pattern => patternTest pattern s) (sensitivePatterns config)
  | _ => Ok false
  end.

(** The body of the [for ... of Object.entries(obj)] loop of [redactObject],
    on the object [redacted] built so far; [recur] is the recursive call. *)
Definition redactProperty (recur : json -> Result json) (config : Config)
           (redacted : list (string * json)) (entry : string * json)
  : Result (list (string * json)) :=
  let (key, value) := entry in
  if isSensitiveKey key config then
    if preserveKeys config
    then Ok (assign key (JString (redactionText config)) redacted)
    else Ok redacted
  else if isObjectLike value then
    value' <- recur value ;;
    Ok (assign key value' redacted)
  else
    sensitive <- isSensitiveValue value config ;;
    if sensitive
    then Ok (assign key (JString (redactionText config)) redacted)
    else Ok (assign key value redacted).

(** [redactObject(obj, config)].  The [parentPath] argument only builds
    [currentPath] strings that nothing reads. *)
Fixpoint redactObject (obj : json) (config : Config) {struct obj} : Result json :=
  match obj with
  | JArray items =>
      items' <- mapM (fun item => redactObject item config) items ;;
      Ok (JArray items')
  | JObject props =>
      redacted <- foldM (redactProperty (fun value => redactObject value config) config)
                        props [] ;;
      Ok (JObject redacted)
  | _ => Ok obj
  end.

(* ===================================================================== *)
(** ** Vocabulary of the properties *)
(* ===================================================================== *)

Definition isCompiled (pattern : SensitivePattern) : bool :=
  match pattern with
  | Compiled _ => true
  | Source _ => false
  end.

(** A rule set: a configuration whose value patterns are all regular
    expression objects. *)
Definition RuleSet (config : Config) : Prop :=
  forallb isCompiled (sensitivePatterns config) = true.

(** The regular expressions among the value patterns. *)
Fixpoint compiledPatterns (patterns : list SensitivePattern) : list RegExp.t :=
  match patterns with
  | [] => []
  | Compiled re :: rest => re :: compiledPatterns rest
  | Source _ :: rest => compiledPatterns rest
  end.

(** [inner] occurs in a value: it is the value itself, or occurs in an
    element of the array, or in the value of a property of the object. *)
Inductive Occurs (inner : json) : json -> Prop :=
| occurs_here : Occurs inner inner
| occurs_item items item :
    In item items -> Occurs inner item -> Occurs inner (JArray items)
| occurs_prop props key value :
    In (key, value) props -> Occurs inner value -> Occurs inner (JObject props).

(** No key anywhere in [v] is sensitive, and no string that is the value of
    a property anywhere in [v] matches a value pattern. *)
Definition nothingSensitive (config : Config) (v : json) : Prop :=
  forall props key value,
    Occurs (JObject props) v -> In (key, value) props ->
    isSensitiveKey key config = false /\
    forall s, value = JString s -> isSensitiveValue value config = Ok false.


(** A second pass returns the value as it is. *)
Definition Stable (config : Config) (v : json) : Prop :=
  redactObject v config = Ok v.

(** A second pass over the property assigns it again as it is. *)
Definition Settled (config : Config) (entry : string * json) : Prop :=
  forall redacted,
    redactProperty (fun value => redactObject value config) config redacted entry
    = Ok (assign (fst entry) (snd entry) redacted).

(** What [redactObject] has built of an object so far. *)
Definition Built (config : Config) (redacted : list (string * json)) : Prop :=
  NoDup (keys redacted) /\ ~ In "__proto__" (keys redacted) /\
  Forall (Settled config) redacted.

(** The sensitive keys of an object are gone, or hold the redaction text. *)
Definition keysRedacted (config : Config) (props : list (string * json)) : Prop :=
  forall key value,
    In (key, value) props -> isSensitiveKey key config = true ->
    preserveKeys config = true /\ value = JString (redactionText config).

(** The object being built has its keys redacted, and so have the objects
    inside its properties. *)
Definition keysRedactedWithin (config : Config) (redacted : list (string * json)) : Prop :=
  keysRedacted config redacted /\
  forall key value props,
    In (key, value) redacted -> Occurs (JObject props) value ->
    keysRedacted config props.

(** A field of the loaded configuration: the value of the file when the file
    has the field, the default otherwise. *)
Definition replaces {A : Type} (user : option A) (base result : A) : Prop :=
  match user with
  | Some a => result = a
  | None => result = base
  end.

(* ===================================================================== *)
(** ** Scenarios *)
(* ===================================================================== *)

(** A file system that holds one file. *)
Definition oneFile (path data : string) : string -> Result string :=
  fun p => if String.eqb p path then Ok data else Throw SystemError.

(** [JSON.parse] as it answers on one text; any other text is malformed. *)
Definition parsesTo (data : string) (parsed : Result UserConfig)
  : string -> Result UserConfig :=
  fun d => if String.eqb d data then parsed else Throw SyntaxError.

(** A configuration file that is an empty object. *)
Definition noOverrides : UserConfig := {|
  userSensitiveKeys := None;
  userSensitiveProperties := None;
  userSensitivePatterns := None;
  userRedactionText := None;
  userPreserveKeys := None
|}.

(** A configuration file whose only field is [sensitiveKeys]. *)
Definition onlySensitiveKeys (names : list string) : UserConfig := {|
  userSensitiveKeys := Some names;
  userSensitiveProperties := None;
  userSensitivePatterns := None;
  userRedactionText := None;
  userPreserveKeys := None
|}.

(** A configuration file whose only field is [sensitivePatterns]. *)
Definition onlySensitivePatterns (sources : list string) : UserConfig := {|
  userSensitiveKeys := None;
  userSensitiveProperties := None;
  userSensitivePatterns := Some sources;
  userRedactionText := None;
  userPreserveKeys := None
|}.

(** A configuration built by a caller of the module, with its own regular
    expression objects. *)
Definition withPatterns (patterns : list RegExp.t) (config : Config) : Config := {|
  sensitiveKeys := sensitiveKeys config;
  sensitiveProperties := sensitiveProperties config;
  sensitivePatterns := map Compiled patterns;
  redactionText := redactionText config;
  preserveKeys := preserveKeys config
|}.

(** [/\d{4,6}$/], the first pattern of the configuration file format that
    [showHelp] prints: anchored at the end only. *)
Definition digitsAtEnd : RegExp.t :=
  RegExp.mk (RegExp.Seq (RegExp.Repeat 4 6 RegExp.digit) RegExp.AssertEnd) false.

Definition quoted (s : string) : string :=
  let dq := String (ascii_of_N 34) EmptyString in dq ++ s ++ dq.

(** The text of a configuration file that gives one value pattern. *)
Definition patternsFile : string :=
  "{" ++ quoted "sensitivePatterns" ++ ": [" ++ quoted "^\\d{4}$" ++ "]}".

(** The text of a configuration file that gives one key pattern. *)
Definition keysFile : string :=
  "{" ++ quoted "sensitiveKeys" ++ ": [" ++ quoted "foo" ++ "]}".

(* ===================================================================== *)
(** ** Values as JavaScript reads them *)
(* ===================================================================== *)

(** [ToBoolean], which [!v] and [v && ...] look at. *)
Definition truthy (v : json) : bool :=
  match v with
  | JNull => false
  | JBool b => b
  | JNumber n => negb (Z.eqb n 0)
  | JString s => negb (String.eqb s "")
  | JArray _ | JObject _ => true
  end.

(** [v.name] for a name that no prototype defines, as [data], [type],
    [content], [items] and [vaults] are: an own property of an object;
    [None] is [undefined], which is also what an array, a string, a number
    or a boolean answers. *)
Definition getProperty (v : json) (name : string) : option json :=
  match v with
  | JObject props => getOwn name props
  | _ => None
  end.

(** The property name of an array index. *)
Definition indexKey (i : nat) : string := NilZero.string_of_uint (Nat.to_uint i).

(** The elements of a sequence as properties named by their indices, from
    index [i] on. *)
Fixpoint indexed {A : Type} (f : A -> json) (l : list A) (i : nat)
  : list (string * json) :=
  match l with
  | [] => []
  | a :: l' => (indexKey i, f a) :: indexed f l' (S i)
  end.

(** The own enumerable properties of a value that is not null, as
    [Object.entries] and an object spread see them: those of an object, the
    elements of an array, the characters of a string, none for a number or a
    boolean. *)
Definition ownEntries (v : json) : list (string * json) :=
  match v with
  | JObject props => props
  | JArray items => indexed (fun item => item) items 0
  | JString s => indexed (fun c => JString (String c EmptyString)) (list_ascii_of_string s) 0
  | _ => []
  end.

(** [{ ...target, ...source }] inside an object literal: every own property
    of [source] is defined on the object under construction.  A spread null
    adds nothing. *)
Definition copyDataProperties (target : list (string * json)) (source : json)
  : list (string * json) :=
  fold_left (fun o entry => defineOwn (fst entry) (snd entry) o) (ownEntries source) target.

(* ===================================================================== *)
(** ** The command line of redact-sensitive.js *)
(* ===================================================================== *)

(** The files a run can see: the text [fs.readFileSync] returns for a path
    ([None]: it throws), what [fs.existsSync] answers, and whether
    [fs.writeFileSync] succeeds there. *)
Record FileSystem : Type := mkFileSystem {
  contents : string -> option string;
  present : string -> bool;
  writable : string -> bool
}.

Definition fsRead (fs : FileSystem) (path : string) : Result string :=
  match contents fs path with
  | Some data => Ok data
  | None => Throw SystemError
  end.

Definition fsWrite (fs : FileSystem) (path data : string) : Result FileSystem :=
  if writable fs path then
    Ok {| contents := fun p => if String.eqb p path then Some data else contents fs p;
          present := fun p => String.eqb p path || present fs p;
          writable := writable fs |}
  else Throw SystemError.

(** How [main] ends: it returns, or calls [process.exit]. *)
Inductive Exit : Type :=
| Returns
| Exits (code : nat).

(** The locals of [main] that the argument loop sets; [None] is [null] or
    [undefined]. *)
Record Options : Type := mkOptions {
  inputFile : option string;
  outputFile : option string;
  configFile : option string;
  preserveKeysFlag : bool;
  dryRun : bool
}.

Definition noOptions : Options := {|
  inputFile := None; outputFile := None; configFile := None;
  preserveKeysFlag := false; dryRun := false
|}.

(** What the argument loop of [main] comes to: it runs to the end, or
    returns early after [showHelp]. *)
Inductive Parsed : Type :=
| Continue (options : Options)
| HelpRequested
| UnknownOption (arg : string)
| TooManyArguments.

(** [!path] for a local that holds a string, null or undefined. *)
Definition unset (path : option string) : bool :=
  match path with
  | None => true
  | Some s => String.eqb s ""
  end.

(** The [for] loop of [main] over [process.argv.slice(2)], from the
    argument at hand on. *)
Fixpoint parseArgs (args : list string) (o : Options) {struct args} : Parsed :=
  match args with
  | [] => Continue o
  | arg :: rest =>
      if String.eqb arg "--help" then HelpRequested
      else if String.eqb arg "--config" then
        match rest with
        | [] =>
            Continue {| inputFile := inputFile o; outputFile := outputFile o;
                        configFile := None;
                        preserveKeysFlag := preserveKeysFlag o; dryRun := dryRun o |}
        | value :: rest' =>
            parseArgs rest'
                      {| inputFile := inputFile o; outputFile := outputFile o;
                         configFile := Some value;
                         preserveKeysFlag := preserveKeysFlag o; dryRun := dryRun o |}
        end
      else if String.eqb arg "--preserve-keys" then
        parseArgs rest
                  {| inputFile := inputFile o; outputFile := outputFile o;
                     configFile := configFile o;
                     preserveKeysFlag := true; dryRun := dryRun o |}
      else if String.eqb arg "--dry-run" then
        parseArgs rest
                  {| inputFile := inputFile o; outputFile := outputFile o;
                     configFile := configFile o;
                     preserveKeysFlag := preserveKeysFlag o; dryRun := true |}
      else if String.prefix "--" arg then UnknownOption arg
      else if unset (inputFile o) then
        parseArgs rest
                  {| inputFile := Some arg; outputFile := outputFile o;
                     configFile := configFile o;
                     preserveKeysFlag := preserveKeysFlag o; dryRun := dryRun o |}
      else if unset (outputFile o) then
        parseArgs rest
                  {| inputFile := inputFile o; outputFile := Some arg;
                     configFile := configFile o;
                     preserveKeysFlag := preserveKeysFlag o; dryRun := dryRun o |}
      else TooManyArguments
  end.

(** The state of the dry run preview: the counter [count] and the lines
    written to the console so far. *)
Definition Preview : Type := (nat * list string)%type.

(** [path ? `${path}.${key}` : key]. *)
Definition previewPath (path key : string) : string :=
  if String.eqb path "" then key else (path ++ "." ++ key)%string.

(** [value === "[REDACTED]"]. *)
Definition isMarker (value : json) : bool :=
  match value with
  | JString s => String.eqb s "[REDACTED]"
  | _ => false
  end.

(** The body of the loop of [showRedacted] for one property; [recur] is the
    recursive call on its value.  The boolean tells that the body returned
    from the function. *)
Definition showProperty (recur : string -> Preview -> Result Preview)
           (path : string) (st : Preview) (key : string) (value : json)
  : Result (Preview * bool) :=
  let currentPath := previewPath path key in
  if isObjectLike value then
    st' <- recur currentPath st ;; Ok (st', false)
  else if isMarker value then
    let count := S (fst st) in
    let st' := (count, snd st ++ [("  " ++ currentPath ++ ": [REDACTED]")%string]) in
    Ok (st', (10 <=? count)%nat)
  else Ok (st, false).

(** The [for ... of Object.entries(obj)] loop of [showRedacted] over the
    properties of an object, with its early return; [recur value] is the
    recursive call on a value. *)
Definition showEntries (recur : json -> string -> Preview -> Result Preview)
           (path : string) : list (string * json) -> Preview -> Result Preview :=
  fix loop (entries : list (string * json)) (st : Preview) {struct entries}
    : Result Preview :=
    match entries with
    | [] => Ok st
    | (key, value) :: rest =>
        r <- showProperty (recur value) path st key value ;;
        if snd r then Ok (fst r) else loop rest (fst r)
    end.

(** The same loop over the elements of an array, which [Object.entries]
    names by their indices, from index [index] on. *)
Definition showElements (recur : json -> string -> Preview -> Result Preview)
           (path : string) : list json -> nat -> Preview -> Result Preview :=
  fix loop (elements : list json) (index : nat) (st : Preview) {struct elements}
    : Result Preview :=
    match elements with
    | [] => Ok st
    | value :: rest =>
        r <- showProperty (recur value) path st (indexKey index) value ;;
        if snd r then Ok (fst r) else loop rest (S index) (fst r)
    end.

(** [showRedacted(obj, path)] of the dry run, on the counter and console
    lines so far.  [Object.entries] throws on null and finds nothing in a
    number or a boolean; in a string it finds the single characters, none of
    which is the marker. *)
Fixpoint showRedacted (obj : json) (path : string) (st : Preview) {struct obj}
  : Result Preview :=
  if (10 <=? fst st)%nat then Ok st
  else
    match obj with
    | JNull => Throw TypeError
    | JObject props => showEntries showRedacted path props st
    | JArray items => showElements showRedacted path items 0 st
    | _ => Ok st
    end.

(** What a call of [showRedacted] does to the counter and the console: the
    counter does not go down, ends at [bound] at most unless it was higher,
    and every step up is one line. *)
Definition Counted (bound : nat) (st st' : Preview) : Prop :=
  fst st <= fst st' /\ fst st' <= Nat.max (fst st) bound /\
  List.length (snd st') + fst st = List.length (snd st) + fst st'.

(** The nesting depth of a value: 0 for a primitive. *)
Fixpoint depth (v : json) : nat :=
  match v with
  | JArray items => S (fold_right (fun item d => Nat.max (depth item) d) 0 items)
  | JObject props => S (fold_right (fun entry d => Nat.max (depth (snd entry)) d) 0 props)
  | _ => 0
  end.

Section Program.

(** [JSON.parse] on the text of a configuration file and on the text of a
    document, [JSON.stringify(value, null, 2)], and the default output name
    [`${parsed.name}.redacted${parsed.ext}`] that [path.parse] gives for an
    input path. *)
Variable JSON_parse_config : string -> Result UserConfig.
Variable JSON_parse_value : string -> Result json.
Variable JSON_stringify : json -> string.
Variable redactedName : string -> string.

(** [processFile(inputPath, outputPath, config)]: the boolean it returns and
    the file system it leaves.  Console output is left out. *)
Definition processFile (fs : FileSystem) (inputPath outputPath : string) (config : Config)
  : bool * FileSystem :=
  match (inputData <- fsRead fs inputPath ;;
         jsonData <- JSON_parse_value inputData ;;
         redactedData <- redactObject jsonData config ;;
         fsWrite fs outputPath (JSON_stringify redactedData)) with
  | Ok fs' => (true, fs')
  | Throw _ => (false, fs)
  end.

(** The dry run of [main]: the lines of the preview, or the exception its
    [try] block catches.  The copy [JSON.parse(JSON.stringify(jsonData))] of
    a parsed document is that document. *)
Definition dryRunPreview (fs : FileSystem) (input : string) (config : Config)
  : Result (list string) :=
  inputData <- fsRead fs input ;;
  jsonData <- JSON_parse_value inputData ;;
  sampleRedacted <- redactObject jsonData config ;;
  st <- showRedacted sampleRedacted "" (0, []) ;;
  Ok (snd st).

(** [main()] on the arguments after the script name: how it ends and the
    file system it leaves.  Console output is left out. *)
Definition main (args : list string) (fs : FileSystem) : Exit * FileSystem :=
  match parseArgs args noOptions with
  | HelpRequested | UnknownOption _ | TooManyArguments => (Returns, fs)
  | Continue o =>
      match inputFile o with
      | None => (Returns, fs)
      | Some input =>
          if String.eqb input "" then (Returns, fs)
          else
            let output := if unset (outputFile o) then redactedName input
                          else match outputFile o with Some p => p | None => "" end in
            let config := withPreserveKeysFlag (preserveKeysFlag o)
                            (loadConfig (fsRead fs) JSON_parse_config (configFile o)) in
            if negb (present fs input) then (Returns, fs)
            else if dryRun o then (Returns, fs)
            else
              let (success, fs') := processFile fs input output config in
              if success then (Returns, fs') else (Exits 1, fs')
      end
  end.

End Program.

(* ===================================================================== *)
(** ** normalize-data.js *)
(* ===================================================================== *)

Definition allowedTypes : list string := ["login"; "note"; "identity"].

(** [allowedTypes.includes(type)]: only a string equals a string. *)
Definition isAllowedType (type : json) : bool :=
  match type with
  | JString s => existsb (String.eqb s) allowedTypes
  | _ => false
  end.

(** [{ ...content, totpUri: '' }]. *)
Definition normalizedContent (content : json) : json :=
  JObject (defineOwn "totpUri" (JString "") (copyDataProperties [] content)).

(** The object literal that becomes [data] in [normalizeItem]. *)
Definition normalizedData (data : json) : json :=
  let o := defineOwn "extraFields" (JArray []) (copyDataProperties [] data) in
  match getProperty data "content" with
  | Some content =>
      if truthy content then JObject (defineOwn "content" (normalizedContent content) o)
      else JObject o
  | None => JObject o
  end.

(** [normalizeItem(item)]; [JNull] is the [null] it returns for an item to
    filter out. *)
Definition normalizeItem (item : json) : json :=
  if negb (truthy item) then JNull
  else
    match getProperty item "data" with
    | None => JNull
    | Some data =>
        if negb (truthy data) then JNull
        else
          match getProperty data "type" with
          | None => JNull
          | Some type =>
              if negb (truthy type) then JNull
              else if negb (isAllowedType type) then JNull
              else JObject (defineOwn "data" (normalizedData data)
                                      (copyDataProperties [] item))
          end
    end.

Definition isNull (v : json) : bool :=
  match v with
  | JNull => true
  | _ => false
  end.

(** [normalizeVault(vault)].  Only an array has the method [map]. *)
Definition normalizeVault (vault : json) : Result json :=
  if negb (truthy vault) then Ok vault
  else
    match getProperty vault "items" with
    | None => Ok vault
    | Some items =>
        if negb (truthy items) then Ok vault
        else
          match items with
          | JArray elements =>
              let normalizedItems :=
                filter (fun item => negb (isNull item)) (map normalizeItem elements) in
              Ok (JObject (defineOwn "items" (JArray normalizedItems)
                                     (copyDataProperties [] vault)))
          | _ => Throw TypeError
          end
    end.

(** The body of the loop of [normalizeData]:
    [normalizedVaults[vaultId] = normalizeVault(vault)]. *)
Definition normalizeVaultEntry (normalizedVaults : list (string * json))
           (entry : string * json) : Result (list (string * json)) :=
  vault' <- normalizeVault (snd entry) ;;
  Ok (assign (fst entry) vault' normalizedVaults).

(** [normalizeData(data)]. *)
Definition normalizeData (data : json) : Result json :=
  if negb (truthy data) then Ok data
  else
    match getProperty data "vaults" with
    | None => Ok data
    | Some vaults =>
        if negb (truthy vaults) then Ok data
        else
          normalizedVaults <- foldM normalizeVaultEntry (ownEntries vaults) [] ;;
          Ok (JObject (defineOwn "vaults" (JObject normalizedVaults)
                                 (copyDataProperties [] data)))
    end.

(** Every object in [v] has distinct keys, as every object that
    [JSON.parse] builds has. *)
Definition distinctKeys (v : json) : Prop :=
  forall props, Occurs (JObject props) v -> NoDup (keys props).

(** The strings of a list are distinct. *)
Fixpoint distinct (l : list string) : bool :=
  match l with
  | [] => true
  | x :: l' => negb (existsb (String.eqb x) l') && distinct l'
  end.

(** [distinctKeys], decided. *)
Fixpoint distinctKeysb (v : json) : bool :=
  match v with
  | JArray items => forallb distinctKeysb items
  | JObject props =>
      distinct (keys props) && forallb (fun entry => distinctKeysb (snd entry)) props
  | _ => true
  end.

(** An item that [normalizeItem] keeps, as the rest of a program sees it:
    its [data] has one of the allowed types and an empty [extraFields]. *)
Definition normalizedItem (item : json) : Prop :=
  exists data type,
    getProperty item "data" = Some data /\
    getProperty data "type" = Some (JString type) /\ In type allowedTypes /\
    getProperty data "extraFields" = Some (JArray []).

(* ===================================================================== *)
(** ** Scenarios for the command line *)
(* ===================================================================== *)

(** [JSON.parse] as it answers on the text of one document. *)
Definition parsesValueTo (data : string) (parsed : Result json) : string -> Result json :=
  fun d => if String.eqb d data then parsed else Throw SyntaxError.

(** A file system that holds one file and lets every path be written. *)
Definition oneFileSystem (path data : string) : FileSystem := {|
  contents := fun p => if String.eqb p path then Some data else None;
  present := fun p => String.eqb p path;
  writable := fun _ => true
|}.

(** A document with ten marked properties in a nested object and one more
    beside it. *)
Definition elevenMarkers : json :=
  JObject [("a", JObject (map (fun i => (indexKey i, JString "[REDACTED]")) (List.seq 0 10)));
           ("b", JString "[REDACTED]")].

(* ===================================================================== *)
(** ** Induction on JSON values *)
(* ===================================================================== *)

Section JsonInduction.
Variable P : json -> Prop.
Hypothesis Hnull : P JNull.
Hypothesis Hbool : forall b, P (JBool b).
Hypothesis Hnumber : forall n, P (JNumber n).
Hypothesis Hstring : forall s, P (JString s).
Hypothesis Harray : forall items, Forall P items -> P (JArray items).
Hypothesis Hobject :
  forall props, Forall (fun entry => P (snd entry)) props -> P (JObject props).

Fixpoint json_ind (v : json) : P v :=
  match v with
  | JNull => Hnull
  | JBool b => Hbool b
  | JNumber n => Hnumber n
  | JString s => Hstring s
  | JArray items =>
      Harray ((fix all (l : list json) : Forall P l :=
                 match l with
                 | [] => Forall_nil _
                 | item :: l' => Forall_cons item (json_ind item) (all l')
                 end) items)
  | JObject props =>
      Hobject ((fix all (l : list (string * json))
                 : Forall (fun entry => P (snd entry)) l :=
                 match l with
                 | [] => Forall_nil _
                 | entry :: l' =>
                     Forall_cons entry (json_ind (snd entry)) (all l')
                 end) props)
  end.
End JsonInduction.

(* ===================================================================== *)
(** ** Loops and exceptions *)
(* ===================================================================== *)

Lemma bind_ok {A B : Type} (m : Result A) (k : A -> Result B) (b : B) :
  bind m k = Ok b -> exists a, m = Ok a /\ k a = Ok b.
Proof.
  destruct m as [a | e]; simpl; intro H; [exists a; auto | discriminate].
Qed.

Ltac bind_inv H :=
  let a := fresh "a" in
  let Ha := fresh "Ha" in
  apply bind_ok in H; destruct H as (a & Ha & H).

Lemma mapM_ok {A B : Type} (f : A -> Result B) (l : list A) (l' : list B) :
  mapM f l = Ok l' -> Forall2 (fun a b => f a = Ok b) l l'.
Proof.
  revert l'; induction l as [| a l IH]; simpl; intros l' H.
  - injection H as <-. constructor.
  - bind_inv H. bind_inv H. injection H as <-. constructor; auto.
Qed.

Lemma mapM_total {A B : Type} (f : A -> Result B) (l : list A) :
  Forall (fun a => exists b, f a = Ok b) l -> exists l', mapM f l = Ok l'.
Proof.
  induction 1 as [| a l (b & Hb) _ (l' & Hl')]; simpl.
  - eexists; reflexivity.
  - rewrite Hb; simpl. rewrite Hl'; simpl. eexists; reflexivity.
Qed.

Lemma mapM_fixed {A : Type} (f : A -> Result A) (l : list A) :
  Forall (fun a => f a = Ok a) l -> mapM f l = Ok l.
Proof.
  induction 1 as [| a l Ha _ IH]; simpl; [reflexivity |].
  rewrite Ha; simpl. rewrite IH; reflexivity.
Qed.

(** An invariant of the loop body that holds before the loop holds after it. *)
Lemma foldM_invariant {A S : Type} (I : S -> Prop) (body : S -> A -> Result S) :
  forall (l : list A) (s s' : S),
    (forall a t t', In a l -> I t -> body t a = Ok t' -> I t') ->
    I s -> foldM body l s = Ok s' -> I s'.
Proof.
  induction l as [| a l IH]; simpl; intros s s' Hbody Hs H.
  - injection H as <-. exact Hs.
  - bind_inv H. eapply IH; [| | exact H]; eauto.
Qed.

Lemma foldM_cons {A S : Type} (body : S -> A -> Result S) a l s :
  foldM body (a :: l) s = (s' <- body s a ;; foldM body l s').
Proof. reflexivity. Qed.

Lemma foldM_total {A S : Type} (body : S -> A -> Result S) :
  forall (l : list A) (s : S),
    Forall (fun a => forall t, exists t', body t a = Ok t') l ->
    exists s', foldM body l s = Ok s'.
Proof.
  induction l as [| a l IH]; simpl; intros s Hl.
  - eexists; reflexivity.
  - inversion Hl as [| ? ? Ha Hl']; subst.
    destruct (Ha s) as (t' & Ht'). rewrite Ht'; simpl. apply IH; assumption.
Qed.

Lemma someM_compiled (s : string) (patterns : list SensitivePattern) :
  forallb isCompiled patterns = true ->
  someM (fun pattern => patternTest pattern s) patterns
  = Ok (existsb (fun re => RegExp.test re s) (compiledPatterns patterns)).
Proof.
  induction patterns as [| [re | text] rest IH]; simpl; intro H;
    [reflexivity | | discriminate].
  destruct (RegExp.test re s); simpl; auto.
Qed.

(* ===================================================================== *)
(** ** Own properties and assignment *)
(* ===================================================================== *)

Lemma defineOwn_fresh key v o :
  ~ In key (keys o) -> defineOwn key v o = o ++ [(key, v)].
Proof.
  induction o as [| [k w] o IH]; simpl; intro Hk; [reflexivity |].
  destruct (String.eqb_spec k key) as [-> | Hne].
  - exfalso; apply Hk; now left.
  - rewrite IH; [reflexivity | intro; apply Hk; now right].
Qed.

Lemma defineOwn_keys key v o :
  In key (keys o) -> keys (defineOwn key v o) = keys o.
Proof.
  induction o as [| [k w] o IH]; simpl; intro Hk; [contradiction |].
  destruct (String.eqb_spec k key) as [-> | Hne]; simpl; [reflexivity |].
  destruct Hk as [-> | Hk]; [contradiction |]. now rewrite IH.
Qed.

Lemma defineOwn_in key v o entry :
  In entry (defineOwn key v o) -> entry = (key, v) \/ In entry o.
Proof.
  induction o as [| [k w] o IH]; simpl.
  - intros [<- | []]; now left.
  - destruct (String.eqb_spec k key) as [-> | Hne]; simpl.
    + intros [<- | H]; auto.
    + intros [<- | H]; auto. destruct (IH H); auto.
Qed.

Lemma defineOwn_get key v o : getOwn key (defineOwn key v o) = Some v.
Proof.
  induction o as [| [k w] o IH]; simpl.
  - now rewrite String.eqb_refl.
  - destruct (String.eqb_spec k key) as [-> | Hne]; simpl.
    + now rewrite String.eqb_refl.
    + apply String.eqb_neq in Hne. now rewrite Hne.
Qed.

Lemma defineOwn_get_other key key' v o :
  key' <> key -> getOwn key' (defineOwn key v o) = getOwn key' o.
Proof.
  intro Hne. induction o as [| [k w] o IH]; simpl.
  - destruct (String.eqb_spec key key'); [congruence | reflexivity].
  - destruct (String.eqb_spec k key) as [-> | Hk]; simpl.
    + destruct (String.eqb_spec key key'); [congruence | reflexivity].
    + now rewrite IH.
Qed.

Lemma keys_app o o' : keys (o ++ o') = keys o ++ keys o'.
Proof. apply map_app. Qed.

Lemma defineOwn_NoDup key v o : NoDup (keys o) -> NoDup (keys (defineOwn key v o)).
Proof.
  intro Ho. destruct (in_dec string_dec key (keys o)) as [Hin | Hout].
  - now rewrite defineOwn_keys.
  - rewrite defineOwn_fresh, keys_app by assumption. simpl.
    apply NoDup_app; [assumption | repeat constructor; intros [] |].
    intros k Hk [<- | []]. contradiction.
Qed.

Lemma defineOwn_key_in key v o k :
  In k (keys (defineOwn key v o)) -> k = key \/ In k (keys o).
Proof.
  unfold keys. rewrite in_map_iff. intros ([k' w] & <- & Hin).
  apply defineOwn_in in Hin. destruct Hin as [[= -> ->] | Hin]; [now left |].
  right. apply in_map_iff. now exists (k', w).
Qed.

Lemma assign_in key v o entry :
  In entry (assign key v o) -> entry = (key, v) \/ In entry o.
Proof.
  unfold assign. destruct (String.eqb key "__proto__"); [auto | apply defineOwn_in].
Qed.

Lemma assign_fresh key v o :
  key <> "__proto__" -> ~ In key (keys o) -> assign key v o = o ++ [(key, v)].
Proof.
  intros Hp Hk. unfold assign. apply String.eqb_neq in Hp. rewrite Hp.
  now apply defineOwn_fresh.
Qed.

Lemma assign_proto v o : assign "__proto__" v o = o.
Proof. reflexivity. Qed.

Lemma assign_get key v o :
  key <> "__proto__" -> getOwn key (assign key v o) = Some v.
Proof.
  intro Hp. unfold assign. apply String.eqb_neq in Hp. rewrite Hp.
  apply defineOwn_get.
Qed.

Lemma assign_get_other key key' v o :
  key' <> key -> getOwn key' (assign key v o) = getOwn key' o.
Proof.
  intro Hne. unfold assign. destruct (String.eqb key "__proto__"); [reflexivity |].
  now apply defineOwn_get_other.
Qed.

Lemma assign_NoDup key v o : NoDup (keys o) -> NoDup (keys (assign key v o)).
Proof.
  unfold assign. destruct (String.eqb key "__proto__"); [auto | apply defineOwn_NoDup].
Qed.

Lemma assign_no_proto key v o :
  ~ In "__proto__" (keys o) -> ~ In "__proto__" (keys (assign key v o)).
Proof.
  unfold assign. destruct (String.eqb_spec key "__proto__") as [-> | Hne]; [auto |].
  intros Ho Hin. apply defineOwn_key_in in Hin. destruct Hin; [congruence | auto].
Qed.

Lemma assign_Forall (Q : string * json -> Prop) key v o :
  Q (key, v) -> Forall Q o -> Forall Q (assign key v o).
Proof.
  intros Hq Ho. apply Forall_forall. intros entry Hin.
  apply assign_in in Hin. destruct Hin as [-> | Hin]; [assumption |].
  rewrite Forall_forall in Ho. auto.
Qed.

(* ===================================================================== *)
(** ** The engine under a rule set *)
(* ===================================================================== *)

Section Engine.
Variable config : Config.

Local Abbreviation recur := (fun value : json => redactObject value config).
Local Abbreviation text := (JString (redactionText config)).

Lemma isSensitiveValue_not_string (value : json) :
  (forall s, value <> JString s) -> isSensitiveValue value config = Ok false.
Proof.
  destruct value; simpl; intro H; try reflexivity. now destruct (H s).
Qed.

Lemma redactObject_primitive (value : json) :
  isObjectLike value = false -> redactObject value config = Ok value.
Proof. destruct value; simpl; intro H; reflexivity || discriminate. Qed.

Lemma redactObject_objectLike (value out : json) :
  redactObject value config = Ok out -> isObjectLike out = isObjectLike value.
Proof.
  destruct value; simpl; intro H; try (injection H as <-; reflexivity);
    bind_inv H; injection H as <-; reflexivity.
Qed.

Lemma redactProperty_sensitive recur' redacted key value :
  isSensitiveKey key config = true ->
  redactProperty recur' config redacted (key, value)
  = Ok (if preserveKeys config then assign key text redacted else redacted).
Proof.
  intro Hk. unfold redactProperty. rewrite Hk. now destruct (preserveKeys config).
Qed.

Lemma redactProperty_nested recur' redacted key value :
  isSensitiveKey key config = false -> isObjectLike value = true ->
  redactProperty recur' config redacted (key, value)
  = (value' <- recur' value ;; Ok (assign key value' redacted)).
Proof. intros Hk Hv. unfold redactProperty. now rewrite Hk, Hv. Qed.

Lemma redactProperty_primitive recur' redacted key value :
  isSensitiveKey key config = false -> isObjectLike value = false ->
  redactProperty recur' config redacted (key, value)
  = (sensitive <- isSensitiveValue value config ;;
     Ok (assign key (if sensitive then text else value) redacted)).
Proof.
  intros Hk Hv. unfold redactProperty. rewrite Hk, Hv.
  destruct (isSensitiveValue value config) as [[|] | e]; reflexivity.
Qed.

(** The loop over properties that are all settled only appends them. *)
Lemma foldM_settled :
  forall (props redacted : list (string * json)),
    NoDup (keys (redacted ++ props)) ->
    ~ In "__proto__" (keys props) ->
    Forall (Settled config) props ->
    foldM (redactProperty recur config) props redacted = Ok (redacted ++ props).
Proof.
  induction props as [| [key value] props IH]; intros redacted Hnd Hproto Hall.
  - simpl. now rewrite app_nil_r.
  - inversion Hall as [| ? ? Hentry Hrest]; subst.
    rewrite foldM_cons, (Hentry redacted). simpl.
    assert (Hfresh : ~ In key (keys redacted)).
    { rewrite keys_app in Hnd. simpl in Hnd. apply NoDup_remove_2 in Hnd.
      intro Hin. apply Hnd. apply in_or_app. now left. }
    rewrite assign_fresh; [| intro Heq; apply Hproto; simpl; now left | assumption].
    rewrite IH.
    + now rewrite <- app_assoc.
    + now rewrite <- app_assoc.
    + intro Hin. apply Hproto. simpl. now right.
    + assumption.
Qed.

Hypothesis rules : RuleSet config.

Lemma isSensitiveValue_string (s : string) :
  isSensitiveValue (JString s) config
  = Ok (existsb (fun re => RegExp.test re s) (compiledPatterns (sensitivePatterns config))).
Proof. simpl. now apply someM_compiled. Qed.

Lemma isSensitiveValue_total (value : json) :
  exists sensitive, isSensitiveValue value config = Ok sensitive.
Proof.
  destruct value; try (exists false; reflexivity).
  eexists. apply isSensitiveValue_string.
Qed.

Lemma redactProperty_total redacted key value :
  (exists value', recur value = Ok value') ->
  exists redacted', redactProperty recur config redacted (key, value) = Ok redacted'.
Proof.
  intros (value' & Hv). unfold redactProperty.
  destruct (isSensitiveKey key config).
  - destruct (preserveKeys config); eexists; reflexivity.
  - destruct (isObjectLike value).
    + rewrite Hv. simpl. eexists; reflexivity.
    + destruct (isSensitiveValue_total value) as ([|] & ->); simpl;
        eexists; reflexivity.
Qed.

(** Under a rule set the engine returns a value for every input. *)
Lemma redactObject_total (obj : json) : exists out, redactObject obj config = Ok out.
Proof.
  induction obj as [| b | n | s | items IH | props IH] using json_ind;
    try (eexists; reflexivity).
  - simpl. destruct (mapM_total (fun item => redactObject item config) IH) as (l' & ->).
    simpl. eexists; reflexivity.
  - simpl.
    destruct (@foldM_total _ _ (redactProperty recur config) props []) as (r & Hr).
    + eapply Forall_impl; [| exact IH]. intros [key value] Hv t.
      apply redactProperty_total. exact Hv.
    + rewrite Hr. simpl. eexists; reflexivity.
Qed.

(** One step of the loop keeps what was built settled. *)
Lemma redactProperty_Built redacted redacted' key value :
  (forall out, redactObject value config = Ok out -> Stable config out) ->
  Built config redacted ->
  redactProperty recur config redacted (key, value) = Ok redacted' ->
  Built config redacted'.
Proof.
  intros IH (Hnd & Hproto & Hall) H.
  assert (Hassign : forall v, Settled config (key, v) -> Built config (assign key v redacted)).
  { intros v Hv. repeat split;
      [now apply assign_NoDup | now apply assign_no_proto | now apply assign_Forall]. }
  destruct (isSensitiveKey key config) eqn:Hk.
  - rewrite redactProperty_sensitive in H by assumption.
    injection H as <-. destruct (preserveKeys config) eqn:Hp; [| repeat split; assumption].
    apply Hassign. intro r. cbn [fst snd].
    rewrite redactProperty_sensitive by assumption. now rewrite Hp.
  - destruct (isObjectLike value) eqn:Hv.
    + rewrite redactProperty_nested in H by assumption.
      bind_inv H. injection H as <-. apply Hassign. intro r. cbn [fst snd].
      rewrite redactProperty_nested;
        [| assumption | now rewrite (redactObject_objectLike _ Ha)].
      rewrite (IH _ Ha). reflexivity.
    + rewrite redactProperty_primitive in H by assumption.
      bind_inv H. injection H as <-. apply Hassign. intro r. cbn [fst snd].
      destruct a.
      * rewrite redactProperty_primitive by (assumption || reflexivity).
        destruct (isSensitiveValue_total text) as ([|] & ->); reflexivity.
      * rewrite redactProperty_primitive by assumption. now rewrite Ha.
Qed.

(** What the engine returns, a second pass returns unchanged. *)
Lemma redactObject_Stable (obj : json) :
  forall out, redactObject obj config = Ok out -> Stable config out.
Proof.
  induction obj as [| b | n | s | items IH | props IH] using json_ind;
    intros out H; try (injection H as <-; reflexivity).
  - simpl in H. bind_inv H. injection H as <-.
    apply mapM_ok in Ha. unfold Stable. simpl.
    rewrite mapM_fixed; [reflexivity |].
    clear - IH Ha. induction Ha as [| item item' l l' Hitem _ IHl]; constructor.
    + inversion IH; subst. now apply (H1 item').
    + inversion IH; subst. auto.
  - simpl in H. bind_inv H. injection H as <-.
    assert (Hbuilt : Built config a).
    { apply (@foldM_invariant _ _ (Built config) (redactProperty recur config)
                                props [] a); [| | exact Ha].
      - intros [key value] t t' Hin Ht Hstep.
        rewrite Forall_forall in IH.
        eapply redactProperty_Built; [exact (IH _ Hin) | exact Ht | exact Hstep].
      - repeat split; [constructor | intros [] | constructor]. }
    destruct Hbuilt as (Hnd & Hproto & Hall).
    unfold Stable. simpl.
    rewrite (@foldM_settled a []); auto.
Qed.

End Engine.

(* ===================================================================== *)
(** ** Searching and anchoring *)
(* ===================================================================== *)

Lemma repeatMatcher_ext (m : RegExp.Matcher) :
  (forall x c c', (forall y, c y = c' y) -> m x c = m x c') ->
  forall max min x c c', (forall y, c y = c' y) ->
  RegExp.repeatMatcher m min max x c = RegExp.repeatMatcher m min max x c'.
Proof.
  intros Hm. induction max as [| max IH]; intros min x c c' Hc; simpl; [apply Hc |].
  rewrite (Hm x _ (fun y => if ((min =? 0) && (y =? x))%nat then false
                            else RegExp.repeatMatcher m (pred min) max y c')).
  - now rewrite Hc.
  - intro y. destruct ((min =? 0) && (y =? x))%nat; [reflexivity | now apply IH].
Qed.

(** A matcher only looks at what its continuation answers. *)
Lemma matcher_ext (ic : bool) (input : list ascii) (p : RegExp.Pattern) :
  forall x c c', (forall y, c y = c' y) ->
  RegExp.matcher ic input p x c = RegExp.matcher ic input p x c'.
Proof.
  induction p as [| | | ranges | a IHa b IHb | a IHa b IHb | min max a IHa];
    intros x c c' Hc; simpl.
  - apply Hc.
  - now rewrite Hc.
  - now rewrite Hc.
  - destruct (nth_error input x); [now rewrite Hc | reflexivity].
  - apply IHa. intro y. now apply IHb.
  - now rewrite (IHa x c c' Hc), (IHb x c c' Hc).
  - now apply repeatMatcher_ext.
Qed.

Lemma matchesAt_anchored (re : RegExp.t) (s : string) (i : nat) :
  RegExp.anchored re -> i <> 0 -> RegExp.matchesAt re s i = false.
Proof.
  intros (body & Hsrc) Hi. unfold RegExp.matchesAt. rewrite Hsrc. simpl.
  apply Nat.eqb_neq in Hi. now rewrite Hi.
Qed.

(** For a pattern anchored at both ends the search of [test] is a match of
    the entire string. *)
Lemma test_anchored (re : RegExp.t) (s : string) :
  RegExp.anchored re -> RegExp.test re s = RegExp.matchesWhole re s.
Proof.
  intro Hre. unfold RegExp.test. rewrite <- cons_seq. simpl.
  assert (Hrest : existsb (RegExp.matchesAt re s) (List.seq 1 (String.length s)) = false).
  { destruct (existsb _ _) eqn:E; [| reflexivity].
    apply existsb_exists in E. destruct E as (i & Hin & Hi). apply in_seq in Hin.
    rewrite matchesAt_anchored in Hi; [discriminate | assumption | lia]. }
  rewrite Hrest, orb_false_r.
  destruct Hre as (body & Hsrc). unfold RegExp.matchesAt, RegExp.matchesWhole.
  rewrite Hsrc. simpl. apply matcher_ext. intro y.
  destruct (y =? List.length (list_ascii_of_string s))%nat; reflexivity.
Qed.

Lemma test_search (re : RegExp.t) (s : string) :
  RegExp.test re s = true <->
  exists i, i <= String.length s /\ RegExp.matchesAt re s i = true.
Proof.
  unfold RegExp.test. rewrite existsb_exists. split.
  - intros (i & Hin & Hi). apply in_seq in Hin. exists i. split; [lia | assumption].
  - intros (i & Hle & Hi). exists i. split; [apply in_seq; lia | assumption].
Qed.

Lemma compiledPatterns_in (re : RegExp.t) (patterns : list SensitivePattern) :
  In re (compiledPatterns patterns) <-> In (Compiled re) patterns.
Proof.
  induction patterns as [| [re' | text] rest IH]; simpl; [tauto | |].
  - rewrite IH. split; intros [H | H]; auto; left; congruence.
  - rewrite IH. split; [auto | intros [H | H]; [discriminate | auto]].
Qed.

(* ===================================================================== *)
(** ** What the output contains *)
(* ===================================================================== *)

Lemma Occurs_object_objectLike (props : list (string * json)) (v : json) :
  Occurs (JObject props) v -> isObjectLike v = true.
Proof. intro H. destruct H; reflexivity. Qed.

Section Output.
Variable config : Config.

Local Abbreviation recur := (fun value : json => redactObject value config).
Local Abbreviation text := (JString (redactionText config)).

Local Abbreviation Redacted := (keysRedactedWithin config).

Lemma assign_Redacted redacted key value :
  Redacted redacted ->
  (isSensitiveKey key config = true ->
   preserveKeys config = true /\ value = text) ->
  (forall props, Occurs (JObject props) value -> keysRedacted config props) ->
  Redacted (assign key value redacted).
Proof.
  intros (Hkeys & Hnested) Hkey Hvalue. split.
  - intros k w Hin Hk. apply assign_in in Hin.
    destruct Hin as [[= -> ->] | Hin]; [auto | now apply (Hkeys k w)].
  - intros k w props Hin Hocc. apply assign_in in Hin.
    destruct Hin as [[= -> ->] | Hin]; [auto | now apply (Hnested k w)].
Qed.

Lemma redactProperty_Redacted redacted redacted' key value :
  (forall out, redactObject value config = Ok out ->
     forall props, Occurs (JObject props) out -> keysRedacted config props) ->
  Redacted redacted ->
  redactProperty recur config redacted (key, value) = Ok redacted' ->
  Redacted redacted'.
Proof.
  intros IH Hred H.
  destruct (isSensitiveKey key config) eqn:Hk.
  - rewrite redactProperty_sensitive in H by assumption. injection H as <-.
    destruct (preserveKeys config) eqn:Hp; [| assumption].
    apply assign_Redacted; auto.
    intros props Hocc. apply Occurs_object_objectLike in Hocc. discriminate.
  - destruct (isObjectLike value) eqn:Hv.
    + rewrite redactProperty_nested in H by assumption.
      bind_inv H. injection H as <-.
      apply assign_Redacted; [assumption | congruence | now apply IH].
    + rewrite redactProperty_primitive in H by assumption.
      bind_inv H. injection H as <-.
      apply assign_Redacted; [assumption | congruence |].
      intros props Hocc. apply Occurs_object_objectLike in Hocc.
      destruct a; [discriminate | congruence].
Qed.

(** In every object of the output, a sensitive key is there only when keys
    are preserved, and then holds the redaction text. *)
Lemma redactObject_keysRedacted (obj : json) :
  forall out, redactObject obj config = Ok out ->
  forall props, Occurs (JObject props) out -> keysRedacted config props.
Proof.
  induction obj as [| b | n | s | items IH | props0 IH] using json_ind;
    intros out H props Hocc;
    try (injection H as <-; apply Occurs_object_objectLike in Hocc; discriminate).
  - simpl in H. bind_inv H. injection H as <-. apply mapM_ok in Ha.
    inversion Hocc as [| items' item' Hin Hitem |]; subst.
    clear Hocc. induction Ha as [| item item'' l l' Hstep _ IHl].
    + destruct Hin.
    + inversion IH; subst. destruct Hin as [-> | Hin]; eauto.
  - simpl in H. bind_inv H. injection H as <-.
    assert (Hred : Redacted a).
    { apply (@foldM_invariant _ _ Redacted (redactProperty recur config)
                              props0 [] a); [| | exact Ha].
      - intros [key value] t t' Hin Ht Hstep. rewrite Forall_forall in IH.
        eapply redactProperty_Redacted; [exact (IH _ Hin) | exact Ht | exact Hstep].
      - split; [intros k w [] | intros k w p []]. }
    destruct Hred as (Hkeys & Hnested).
    inversion Hocc as [| | props' key value Hin Hvalue]; subst; eauto.
Qed.

(** A step of the loop leaves the properties of other names alone. *)
Lemma redactProperty_get_other recur' redacted redacted' key k w :
  key <> k ->
  redactProperty recur' config redacted (k, w) = Ok redacted' ->
  getOwn key redacted' = getOwn key redacted.
Proof.
  intros Hne H. unfold redactProperty in H.
  destruct (isSensitiveKey k config).
  - destruct (preserveKeys config); injection H as <-;
      [now apply assign_get_other | reflexivity].
  - destruct (isObjectLike w).
    + destruct (recur' w); [| discriminate]. injection H as <-.
      now apply assign_get_other.
    + destruct (isSensitiveValue w config) as [[|] |]; [| | discriminate];
        injection H as <-; now apply assign_get_other.
Qed.

(** A sensitive key other than ["__proto__"], met in an object: it holds the
    redaction text when keys are preserved and is left out otherwise,
    whatever its value was. *)
Lemma foldM_sensitive_key (key : string) :
  isSensitiveKey key config = true -> key <> "__proto__" ->
  forall props redacted redacted',
    foldM (redactProperty recur config) props redacted = Ok redacted' ->
    getOwn key redacted'
    = if preserveKeys config && existsb (String.eqb key) (keys props)
      then Some text else getOwn key redacted.
Proof.
  intros Hk Hproto.
  induction props as [| [k w] props IH]; intros redacted redacted' H.
  - injection H as <-. now rewrite andb_false_r.
  - rewrite foldM_cons in H. bind_inv H. rewrite (IH _ _ H). simpl.
    destruct (String.eqb_spec key k) as [<- | Hne]; simpl.
    + rewrite redactProperty_sensitive in Ha by assumption. injection Ha as <-.
      destruct (preserveKeys config); simpl.
      * rewrite assign_get by assumption. now destruct (existsb _ _).
      * reflexivity.
    + erewrite redactProperty_get_other; [reflexivity | exact Hne | exact Ha].
Qed.


End Output.

(* ===================================================================== *)
(** ** Sensitive keys *)
(* ===================================================================== *)

Unset Implicit Arguments.

(** A key whose lowered form is an element of [sensitiveProperties] is
    sensitive, whatever [sensitiveKeys] holds. *)
Lemma isSensitiveKey_exact (key : string) (config : Config) :
  In (toLowerCase key) (sensitiveProperties config) ->
  isSensitiveKey key config = true.
Proof.
  intro Hin. unfold isSensitiveKey.
  assert (H : existsb (String.eqb (toLowerCase key)) (sensitiveProperties config) = true).
  { apply existsb_exists. exists (toLowerCase key). split; [assumption | apply String.eqb_refl]. }
  now rewrite H.
Qed.

(** A sensitive key other than ["__proto__"]: the result holds it with the
    redaction text when keys are preserved and does not hold it otherwise;
    the value of the property plays no part. *)
Lemma sensitive_key_in_result (config : Config) (key : string) (propValue : json)
      (props out : list (string * json)) :
  isSensitiveKey key config = true -> key <> "__proto__" ->
  In (key, propValue) props ->
  redactObject (JObject props) config = Ok (JObject out) ->
  getOwn key out
  = if preserveKeys config then Some (JString (redactionText config)) else None.
Proof.
  intros Hk Hproto Hin H. simpl in H. bind_inv H. injection H as <-.
  rewrite (@foldM_sensitive_key config key Hk Hproto props [] a Ha). simpl.
  assert (Hmem : existsb (String.eqb key) (keys props) = true).
  { apply existsb_exists. exists key. split; [| apply String.eqb_refl].
    unfold keys. apply in_map_iff. now exists (key, propValue). }
  rewrite Hmem. now destruct (preserveKeys config).
Qed.

(** The two runs of the key omission and preservation example. *)
Example password_omitted_or_preserved :
  redactObject (JObject [("password", JString "x"); ("keep", JNumber 1)]) DEFAULT_CONFIG
  = Ok (JObject [("keep", JNumber 1)]) /\
  redactObject (JObject [("password", JString "x"); ("keep", JNumber 1)])
               (withPreserveKeysFlag true DEFAULT_CONFIG)
  = Ok (JObject [("password", JString "[REDACTED]"); ("keep", JNumber 1)]).
Proof. split; vm_compute; reflexivity. Qed.

(** C1, at the property name ["__proto__"].  With [sensitiveKeys] set to
    [["proto"]] and keys preserved, the key ["__proto__"] is sensitive, and
    the claim has the result hold it with the redaction text.  The assignment
    [redacted[key] = config.redactionText] creates no own property of that
    name: the result holds ["keep"] alone. *)
Theorem sensitive_proto_key_is_lost :
  let config := withPreserveKeysFlag true (spread DEFAULT_CONFIG (onlySensitiveKeys ["proto"])) in
  isSensitiveKey "__proto__" config = true /\
  preserveKeys config = true /\
  redactObject (JObject [("__proto__", JString "x"); ("keep", JNumber 1)]) config
  = Ok (JObject [("keep", JNumber 1)]).
Proof. repeat split; vm_compute; reflexivity. Qed.

(** C2, at the key ["creditCardNumber"].  The name is an element of the
    default [sensitiveProperties], the key equals it, and [isSensitiveKey]
    answers false: the key is lowered before [includes] compares it with the
    elements, which are not, and no default key pattern occurs in it.  The
    property goes through redaction untouched. *)
Theorem creditCardNumber_is_not_sensitive :
  In "creditCardNumber" (sensitiveProperties DEFAULT_CONFIG) /\
  isSensitiveKey "creditCardNumber" DEFAULT_CONFIG = false /\
  redactObject (JObject [("creditCardNumber", JString "4111 1111 1111 1111")]) DEFAULT_CONFIG
  = Ok (JObject [("creditCardNumber", JString "4111 1111 1111 1111")]).
Proof.
  split; [simpl; tauto |]. split; vm_compute; reflexivity.
Qed.

(* ===================================================================== *)
(** ** Arrays and primitives *)
(* ===================================================================== *)

(** C3.  Under a rule set, an array comes back as an array of the same
    length whose element at each index is the redaction of the element of
    the input at that index, and is that element itself when it is a
    primitive; a primitive is returned as it is, whether or not a value
    pattern matches it.  With the default rule set the string ["12345"]
    matches a value pattern and [{"items": ["12345", "hello"]}] comes back
    unchanged. *)
Theorem arrays_are_mapped_and_primitives_kept (config : Config) :
  RuleSet config ->
  (forall items, exists items',
      redactObject (JArray items) config = Ok (JArray items') /\
      List.length items' = List.length items /\
      forall i item, nth_error items i = Some item ->
        exists item', nth_error items' i = Some item' /\
                      redactObject item config = Ok item' /\
                      (isObjectLike item = false -> item' = item)) /\
  (forall value, isObjectLike value = false -> redactObject value config = Ok value) /\
  isSensitiveValue (JString "12345") DEFAULT_CONFIG = Ok true /\
  redactObject (JObject [("items", JArray [JString "12345"; JString "hello"])]) DEFAULT_CONFIG
  = Ok (JObject [("items", JArray [JString "12345"; JString "hello"])]).
Proof.
  intro rules. split; [| split; [| split; vm_compute; reflexivity]].
  - intro items.
    destruct (@redactObject_total config rules (JArray items)) as (out & Hout).
    simpl in Hout. bind_inv Hout. injection Hout as <-.
    exists a. simpl. rewrite Ha. split; [reflexivity |].
    apply mapM_ok in Ha. split.
    + symmetry. exact (Forall2_length Ha).
    + clear - Ha. induction Ha as [| x y l l' Hxy _ IH]; intros i item Hi.
      * destruct i; discriminate.
      * destruct i as [| i]; simpl in *.
        -- injection Hi as ->. exists y. repeat split; [assumption |].
           intro Hprim. rewrite (@redactObject_primitive config _ Hprim) in Hxy.
           now injection Hxy.
        -- now apply IH.
  - intros value Hprim. now apply redactObject_primitive.
Qed.

(** The default rule set on an array of a string and an object. *)
Lemma arrays_are_mapped_and_primitives_kept_witness :
  RuleSet DEFAULT_CONFIG /\
  exists items',
    redactObject (JArray [JString "12345"; JObject [("pin", JString "0000")]]) DEFAULT_CONFIG
    = Ok (JArray items') /\
    List.length items' = 2.
Proof.
  split; [reflexivity |].
  destruct (proj1 (arrays_are_mapped_and_primitives_kept DEFAULT_CONFIG eq_refl)
                  [JString "12345"; JObject [("pin", JString "0000")]])
    as (items' & Hout & Hlen & _).
  exists items'. split; assumption.
Defined.

(* ===================================================================== *)
(** ** Sensitive values *)
(* ===================================================================== *)

(** Every value pattern of the default configuration is anchored at both
    ends. *)
Lemma default_patterns_anchored (re : RegExp.t) :
  In (Compiled re) (sensitivePatterns DEFAULT_CONFIG) -> RegExp.anchored re.
Proof.
  simpl. intros [H | [H | [H | [H | [H | []]]]]]; injection H as <-;
    eexists; reflexivity.
Qed.

(** C4 as stated fails.  The pattern [/\d{4,6}$/] finds its match inside
    ["abc1234"], so [isSensitiveValue] answers true, while no pattern of the
    rule set matches that entire string. *)
Lemma search_is_not_a_whole_match :
  let config := withPatterns [digitsAtEnd] DEFAULT_CONFIG in
  RuleSet config /\
  ~ (isSensitiveValue (JString "abc1234") config = Ok true <->
     exists re, In (Compiled re) (sensitivePatterns config) /\
                RegExp.matchesWhole re "abc1234" = true).
Proof.
  split; [reflexivity |]. intros [Hto _].
  destruct (Hto eq_refl) as (re & [Hre | []] & Hwhole).
  injection Hre as <-. vm_compute in Hwhole. discriminate.
Qed.

(** C4, amended.  [isSensitiveValue] answers false for every value that is
    not a string.  Under a rule set it answers for every string, and answers
    true exactly when the search that [test] runs finds, for some pattern, a
    match starting at some index of the string; when every pattern is
    anchored at both ends, that is exactly when some pattern matches the
    entire string. *)
Theorem isSensitiveValue_searches (config : Config) :
  RuleSet config ->
  (forall value, (forall s, value <> JString s) ->
                 isSensitiveValue value config = Ok false) /\
  (forall s, exists sensitive,
      isSensitiveValue (JString s) config = Ok sensitive /\
      (sensitive = true <->
       exists re i, In (Compiled re) (sensitivePatterns config) /\
                    i <= String.length s /\ RegExp.matchesAt re s i = true) /\
      ((forall re, In (Compiled re) (sensitivePatterns config) -> RegExp.anchored re) ->
       (sensitive = true <->
        exists re, In (Compiled re) (sensitivePatterns config) /\
                   RegExp.matchesWhole re s = true))).
Proof.
  intro rules. split; [intros value Hv; now apply isSensitiveValue_not_string |].
  intro s. eexists. split; [now apply isSensitiveValue_string |]. split.
  - rewrite existsb_exists. split.
    + intros (re & Hin & Htest). apply compiledPatterns_in in Hin.
      apply test_search in Htest. destruct Htest as (i & Hi & Hm). eauto.
    + intros (re & i & Hin & Hi & Hm). exists re. split.
      * now apply compiledPatterns_in.
      * apply test_search. eauto.
  - intro Hanchored. rewrite existsb_exists. split.
    + intros (re & Hin & Htest). apply compiledPatterns_in in Hin.
      rewrite test_anchored in Htest by auto. eauto.
    + intros (re & Hin & Hwhole). exists re. split.
      * now apply compiledPatterns_in.
      * rewrite test_anchored by auto. assumption.
Qed.

(** The default rule set on the string ["12345"]: its patterns are anchored,
    so the answer is that of a match of the entire string. *)
Lemma isSensitiveValue_searches_witness :
  RuleSet DEFAULT_CONFIG /\
  exists sensitive,
    isSensitiveValue (JString "12345") DEFAULT_CONFIG = Ok sensitive /\
    (sensitive = true <->
     exists re, In (Compiled re) (sensitivePatterns DEFAULT_CONFIG) /\
                RegExp.matchesWhole re "12345" = true).
Proof.
  split; [reflexivity |].
  destruct (proj2 (isSensitiveValue_searches DEFAULT_CONFIG eq_refl) "12345")
    as (sensitive & Hvalue & _ & Hwhole).
  exists sensitive. split; [exact Hvalue | exact (Hwhole default_patterns_anchored)].
Defined.

(* ===================================================================== *)
(** ** Loading the configuration *)
(* ===================================================================== *)

(** C5, at a configuration file that gives the value pattern [^\d{4}$].
    [loadConfig] copies the string into [sensitivePatterns] as it is; the
    configuration is no rule set, and redacting [{"code": "1234"}] with it
    throws a [TypeError] at [pattern.test(value)], where the claim has a
    compiled regular expression redact the value. *)
Theorem file_patterns_stay_strings :
  let config := loadConfig (oneFile "config.json" patternsFile)
                           (parsesTo patternsFile (Ok (onlySensitivePatterns ["^\d{4}$"])))
                           (Some "config.json") in
  sensitivePatterns config = [Source "^\d{4}$"] /\
  ~ RuleSet config /\
  redactObject (JObject [("code", JString "1234")]) config = Throw TypeError.
Proof.
  repeat split; try (vm_compute; reflexivity).
  intro H. vm_compute in H. discriminate.
Qed.

(** C6.  When the configuration file is read and parsed, each of the five
    fields of the loaded configuration is the value of the file when the file
    has the field and the default otherwise; value patterns of the file are
    taken as the strings they are.  A file that gives only the key patterns
    [["foo"]] yields exactly those key patterns, with the default exact
    property names and the default value patterns. *)
Theorem loadConfig_replaces_fields
        (readFileSync : string -> Result string)
        (JSON_parse : string -> Result UserConfig)
        (path data : string) (user : UserConfig) :
  path <> "" -> readFileSync path = Ok data -> JSON_parse data = Ok user ->
  let config := loadConfig readFileSync JSON_parse (Some path) in
  replaces (userSensitiveKeys user) (sensitiveKeys DEFAULT_CONFIG) (sensitiveKeys config) /\
  replaces (userSensitiveProperties user) (sensitiveProperties DEFAULT_CONFIG)
           (sensitiveProperties config) /\
  replaces (option_map (map Source) (userSensitivePatterns user))
           (sensitivePatterns DEFAULT_CONFIG) (sensitivePatterns config) /\
  replaces (userRedactionText user) (redactionText DEFAULT_CONFIG) (redactionText config) /\
  replaces (userPreserveKeys user) (preserveKeys DEFAULT_CONFIG) (preserveKeys config) /\
  (user = onlySensitiveKeys ["foo"] ->
   sensitiveKeys config = ["foo"] /\
   sensitiveProperties config = sensitiveProperties DEFAULT_CONFIG /\
   sensitivePatterns config = sensitivePatterns DEFAULT_CONFIG).
Proof.
  intros Hpath Hread Hparse config.
  assert (Hconfig : config = spread DEFAULT_CONFIG user).
  { subst config. unfold loadConfig. destruct path as [| c path]; [congruence |].
    rewrite Hread. simpl. rewrite Hparse. reflexivity. }
  rewrite Hconfig. clear.
  do 5 (split; [destruct user as [[ks |] [ps |] [pats |] [txt |] [pk |]]; reflexivity |]).
  intros ->. repeat split.
Qed.

(** A file system with one configuration file, which gives the key patterns
    [["foo"]]. *)
Lemma loadConfig_replaces_fields_witness :
  sensitiveKeys (loadConfig (oneFile "config.json" keysFile)
                            (parsesTo keysFile (Ok (onlySensitiveKeys ["foo"])))
                            (Some "config.json")) = ["foo"].
Proof.
  apply (loadConfig_replaces_fields
           (oneFile "config.json" keysFile)
           (parsesTo keysFile (Ok (onlySensitiveKeys ["foo"])))
           "config.json" keysFile (onlySensitiveKeys ["foo"])).
  - discriminate.
  - reflexivity.
  - reflexivity.
  - reflexivity.
Defined.

(** The file cannot be read: the default configuration. *)
Lemma loadConfig_unreadable
      (readFileSync : string -> Result string)
      (JSON_parse : string -> Result UserConfig) (path : string) (e : Error) :
  readFileSync path = Throw e ->
  loadConfig readFileSync JSON_parse (Some path) = DEFAULT_CONFIG.
Proof.
  intro Hread. unfold loadConfig. destruct path; [reflexivity |].
  rewrite Hread. reflexivity.
Qed.

(** C7.  When the configuration file is read and [JSON.parse] throws on its
    text, [loadConfig] returns the default configuration, which is a rule
    set. *)
Theorem loadConfig_falls_back
        (readFileSync : string -> Result string)
        (JSON_parse : string -> Result UserConfig)
        (path data : string) (e : Error) :
  readFileSync path = Ok data -> JSON_parse data = Throw e ->
  loadConfig readFileSync JSON_parse (Some path) = DEFAULT_CONFIG /\
  RuleSet (loadConfig readFileSync JSON_parse (Some path)).
Proof.
  intros Hread Hparse.
  assert (H : loadConfig readFileSync JSON_parse (Some path) = DEFAULT_CONFIG).
  { unfold loadConfig. destruct path; [reflexivity |].
    rewrite Hread. simpl. rewrite Hparse. reflexivity. }
  rewrite H. split; reflexivity.
Qed.

(** A file system with one configuration file, whose text is not JSON. *)
Lemma loadConfig_falls_back_witness :
  loadConfig (oneFile "config.json" "{not json")
             (parsesTo keysFile (Ok (onlySensitiveKeys ["foo"])))
             (Some "config.json") = DEFAULT_CONFIG.
Proof.
  apply (loadConfig_falls_back
           (oneFile "config.json" "{not json")
           (parsesTo keysFile (Ok (onlySensitiveKeys ["foo"])))
           "config.json" "{not json" SyntaxError).
  - reflexivity.
  - reflexivity.
Defined.

(* ===================================================================== *)
(** ** Properties of a redaction run *)
(* ===================================================================== *)

(** C8.  Under a rule set the engine returns a value for every input, and
    redacting that value again returns it unchanged. *)
Theorem redactObject_idempotent (v : json) (config : Config) :
  RuleSet config ->
  exists out, redactObject v config = Ok out /\ redactObject out config = Ok out.
Proof.
  intro rules. destruct (@redactObject_total config rules v) as (out & Hout).
  exists out. split; [assumption |].
  exact (@redactObject_Stable config rules v out Hout).
Qed.

(** The default rule set with keys preserved, on an object with a value
    match and a sensitive key. *)
Lemma redactObject_idempotent_witness :
  exists out,
    redactObject (JObject [("code", JString "1234"); ("login", JArray [JNull])])
                 (withPreserveKeysFlag true DEFAULT_CONFIG) = Ok out /\
    redactObject out (withPreserveKeysFlag true DEFAULT_CONFIG) = Ok out.
Proof.
  apply (redactObject_idempotent
           (JObject [("code", JString "1234"); ("login", JArray [JNull])])
           (withPreserveKeysFlag true DEFAULT_CONFIG)).
  reflexivity.
Defined.

(** C9, at an object with a property named ["__proto__"].  No key of the
    input is sensitive and no string held by a property matches a value
    pattern, yet the result is not a copy: the assignment
    [redacted[key] = value] creates no own property of that name, and the
    property is missing from the result. *)
Theorem proto_property_is_dropped :
  let input := JObject [("name", JString "x"); ("__proto__", JNumber 1)] in
  nothingSensitive DEFAULT_CONFIG input /\
  redactObject input DEFAULT_CONFIG = Ok (JObject [("name", JString "x")]).
Proof.
  split; [| vm_compute; reflexivity].
  intros props key value Hocc Hin.
  inversion Hocc as [| | props' k w Hk Hw]; subst.
  - destruct Hin as [[= <- <-] | [[= <- <-] | []]]; split;
      try (vm_compute; reflexivity); intros s Hs; discriminate.
  - destruct Hk as [[= <- <-] | [[= <- <-] | []]];
      apply Occurs_object_objectLike in Hw; discriminate.
Qed.

(** C10.  Under a rule set the engine returns a value for every input, and
    in every object that occurs in that value: when keys are not preserved
    no key is sensitive, and when keys are preserved every sensitive key
    holds the redaction text. *)
Theorem sensitive_keys_redacted_everywhere (v : json) (config : Config) :
  RuleSet config ->
  exists out,
    redactObject v config = Ok out /\
    forall props, Occurs (JObject props) out ->
      (preserveKeys config = false ->
       forall key value, In (key, value) props -> isSensitiveKey key config = false) /\
      (preserveKeys config = true ->
       forall key value, In (key, value) props -> isSensitiveKey key config = true ->
                         value = JString (redactionText config)).
Proof.
  intro rules. destruct (@redactObject_total config rules v) as (out & Hout).
  exists out. split; [assumption |]. intros props Hocc.
  pose proof (@redactObject_keysRedacted config v out Hout props Hocc) as Hkeys.
  split.
  - intros Hp key value Hin. destruct (isSensitiveKey key config) eqn:Hk; [| reflexivity].
    destruct (Hkeys key value Hin Hk) as (Hp' & _). congruence.
  - intros Hp key value Hin Hk. now destruct (Hkeys key value Hin Hk).
Qed.

(** The default rule set, which does not preserve keys, on a nested object. *)
Lemma sensitive_keys_redacted_everywhere_witness :
  exists out,
    redactObject (JObject [("item", JObject [("password", JString "x"); ("keep", JNumber 1)])])
                 DEFAULT_CONFIG = Ok out /\
    forall props, Occurs (JObject props) out ->
      forall key value, In (key, value) props -> isSensitiveKey key DEFAULT_CONFIG = false.
Proof.
  destruct (sensitive_keys_redacted_everywhere
              (JObject [("item", JObject [("password", JString "x"); ("keep", JNumber 1)])])
              DEFAULT_CONFIG eq_refl) as (out & Hout & Hall).
  exists out. split; [assumption |].
  intros props Hocc. exact (proj1 (Hall props Hocc) eq_refl).
Defined.

(* ===================================================================== *)
(** ** More on what redaction keeps *)
(* ===================================================================== *)

Lemma foldM_app {A S : Type} (body : S -> A -> Result S) (l1 l2 : list A) (s : S) :
  foldM body (l1 ++ l2) s = (s' <- foldM body l1 s ;; foldM body l2 s').
Proof.
  revert s. induction l1 as [| a l1 IH]; intro s; [reflexivity |].
  simpl. destruct (body s a); simpl; [apply IH | reflexivity].
Qed.

(** One step of the loop adds the key at the end, or leaves the keys alone
    when the key is sensitive and keys are not preserved. *)
Lemma redactProperty_keys (recur : json -> Result json) (config : Config)
      (redacted redacted' : list (string * json)) (key : string) (value : json) :
  key <> "__proto__" -> ~ In key (keys redacted) ->
  redactProperty recur config redacted (key, value) = Ok redacted' ->
  keys redacted'
  = keys redacted ++ (if preserveKeys config || negb (isSensitiveKey key config)
                      then [key] else []).
Proof.
  intros Hproto Hfresh H.
  assert (Hadd : forall v, keys (assign key v redacted) = keys redacted ++ [key]).
  { intro v. rewrite assign_fresh by assumption. now rewrite keys_app. }
  unfold redactProperty in H. destruct (isSensitiveKey key config).
  - destruct (preserveKeys config); injection H as <-; simpl;
      [apply Hadd | now rewrite app_nil_r].
  - rewrite orb_true_r. destruct (isObjectLike value).
    + destruct (recur value); [| discriminate]. injection H as <-. apply Hadd.
    + destruct (isSensitiveValue value config) as [[|] |]; [| | discriminate];
        injection H as <-; apply Hadd.
Qed.

Lemma foldM_keys (config : Config) :
  forall (props redacted out : list (string * json)),
    NoDup (keys redacted ++ keys props) -> ~ In "__proto__" (keys props) ->
    foldM (redactProperty (fun value => redactObject value config) config) props redacted
    = Ok out ->
    keys out
    = keys redacted
      ++ filter (fun key => preserveKeys config || negb (isSensitiveKey key config))
                (keys props).
Proof.
  induction props as [| [key value] props IH]; intros redacted out Hnd Hproto H.
  - injection H as <-. simpl. now rewrite app_nil_r.
  - rewrite foldM_cons in H. bind_inv H. simpl in Hnd, Hproto.
    assert (Hfresh : ~ In key (keys redacted)).
    { apply NoDup_remove_2 in Hnd. intro Hin. apply Hnd. apply in_or_app. now left. }
    pose proof (redactProperty_keys _ config redacted a key value
                  (fun Heq => Hproto (or_introl Heq)) Hfresh Ha) as Hkeys.
    rewrite (IH a out); [| | intro Hin; apply Hproto; now right | exact H].
    + rewrite Hkeys. simpl.
      destruct (preserveKeys config || negb (isSensitiveKey key config));
        rewrite <- app_assoc; reflexivity.
    + rewrite Hkeys.
      destruct (preserveKeys config || negb (isSensitiveKey key config)).
      * rewrite <- app_assoc. exact Hnd.
      * rewrite app_nil_r. exact (NoDup_remove_1 _ _ _ Hnd).
Qed.

Lemma foldM_get_untouched (config : Config) (recur : json -> Result json) (key : string) :
  forall (props redacted out : list (string * json)),
    ~ In key (keys props) ->
    foldM (redactProperty recur config) props redacted = Ok out ->
    getOwn key out = getOwn key redacted.
Proof.
  induction props as [| [k w] props IH]; intros redacted out Hout H.
  - now injection H as <-.
  - rewrite foldM_cons in H. bind_inv H.
    rewrite (IH a out (fun Hin => Hout (or_intror Hin)) H).
    eapply redactProperty_get_other; [| exact Ha].
    intro Heq. apply Hout. left. now rewrite Heq.
Qed.

(** Every primitive inside what one step adds is the redaction text or was
    inside the value of the property. *)
Lemma redactProperty_origin (config : Config) (redacted redacted' : list (string * json))
      (key : string) (value : json) :
  (forall out, redactObject value config = Ok out ->
     forall p, isObjectLike p = false -> Occurs p out ->
               p = JString (redactionText config) \/ Occurs p value) ->
  redactProperty (fun v => redactObject v config) config redacted (key, value)
  = Ok redacted' ->
  forall k w, In (k, w) redacted' ->
    In (k, w) redacted \/
    forall p, isObjectLike p = false -> Occurs p w ->
              p = JString (redactionText config) \/ Occurs p value.
Proof.
  intros IH H k w Hin.
  assert (Hmarker : forall p, Occurs p (JString (redactionText config)) ->
                              p = JString (redactionText config) \/ Occurs p value).
  { intros p Hp. left. now inversion Hp. }
  unfold redactProperty in H. destruct (isSensitiveKey key config).
  - destruct (preserveKeys config); injection H as <-; [| now left].
    apply assign_in in Hin. destruct Hin as [[= -> ->] | Hin]; [right | now left].
    intros p _ Hp. now apply Hmarker.
  - destruct (isObjectLike value) eqn:Hv.
    + bind_inv H. injection H as <-.
      apply assign_in in Hin. destruct Hin as [[= -> ->] | Hin]; [right | now left].
      intros p Hp Hocc. now apply (IH a).
    + bind_inv H. destruct a; injection H as <-;
        apply assign_in in Hin; destruct Hin as [[= -> ->] | Hin];
        try (now left); right; intros p _ Hp; [now apply Hmarker | now right].
Qed.

Lemma redactObject_origin (config : Config) (v : json) :
  forall out, redactObject v config = Ok out ->
  forall p, isObjectLike p = false -> Occurs p out ->
            p = JString (redactionText config) \/ Occurs p v.
Proof.
  induction v as [| b | n | s | items IH | props IH] using json_ind;
    intros out H p Hp Hocc; try (injection H as <-; now right).
  - simpl in H. bind_inv H. injection H as <-. apply mapM_ok in Ha.
    inversion Hocc as [| items' item' Hin Hitem |]; subst; [discriminate |].
    clear Hocc. induction Ha as [| item item'' l l' Hstep _ IHl]; [destruct Hin |].
    inversion IH as [| ? ? Hhead Htail]; subst.
    destruct Hin as [-> | Hin].
    + destruct (Hhead _ Hstep p Hp Hitem) as [-> | Hin']; [now left | right].
      eapply occurs_item; [now left | exact Hin'].
    + destruct (IHl Htail Hin) as [-> | Hin']; [now left | right].
      inversion Hin' as [| ? item0 Hmem Hsub |]; subst; [discriminate |].
      eapply occurs_item; [right; exact Hmem | exact Hsub].
  - simpl in H. bind_inv H. injection H as <-.
    inversion Hocc as [| | props' key value Hin Hvalue]; subst; [discriminate |].
    assert (Hinv : forall k w, In (k, w) a ->
               forall q, isObjectLike q = false -> Occurs q w ->
                         q = JString (redactionText config) \/ Occurs q (JObject props)).
    { apply (@foldM_invariant _ _
               (fun acc => forall k w, In (k, w) acc ->
                  forall q, isObjectLike q = false -> Occurs q w ->
                            q = JString (redactionText config) \/ Occurs q (JObject props))
               (redactProperty (fun value => redactObject value config) config)
               props [] a); [| intros k w [] | exact Ha].
      intros [k0 w0] t t' Hmem Ht Hstep k w Hkw q Hq Hqw.
      rewrite Forall_forall in IH.
      destruct (redactProperty_origin config t t' k0 w0 (IH (k0, w0) Hmem) Hstep k w Hkw)
        as [Hold | Hnew].
      - exact (Ht k w Hold q Hq Hqw).
      - destruct (Hnew q Hq Hqw) as [-> | Hsub]; [now left | right].
        eapply occurs_prop; [exact Hmem | exact Hsub]. }
    exact (Hinv key value Hin p Hp Hvalue).
Qed.

(** X1.  An object whose keys are distinct and none of which is
    ["__proto__"]: the keys of the result are the keys of the input, in the
    same order, without the sensitive ones, or all of them when keys are
    preserved. *)
Theorem result_keys_in_order (config : Config) (props out : list (string * json)) :
  NoDup (keys props) -> ~ In "__proto__" (keys props) ->
  redactObject (JObject props) config = Ok (JObject out) ->
  keys out
  = filter (fun key => preserveKeys config || negb (isSensitiveKey key config))
           (keys props).
Proof.
  intros Hnd Hproto H. simpl in H. bind_inv H. injection H as <-.
  exact (foldM_keys config props [] a Hnd Hproto Ha).
Qed.

(** The default rule set on an object with a sensitive key in the middle. *)
Lemma result_keys_in_order_witness :
  keys [("title", JString "t"); ("notes", JNull)]
  = filter (fun key => preserveKeys DEFAULT_CONFIG
                       || negb (isSensitiveKey key DEFAULT_CONFIG))
           (keys [("title", JString "t"); ("apiKey", JString "k"); ("notes", JNull)]).
Proof.
  apply (result_keys_in_order DEFAULT_CONFIG
           [("title", JString "t"); ("apiKey", JString "k"); ("notes", JNull)]
           [("title", JString "t"); ("notes", JNull)]).
  - repeat constructor; simpl; intuition discriminate.
  - simpl. intuition discriminate.
  - vm_compute. reflexivity.
Defined.

(** X2.  The value of a property with a sensitive key plays no part in the
    result, for any configuration: with another value in its place the
    engine returns the same value or throws the same exception. *)
Theorem sensitive_value_is_never_read (config : Config) (key : string) (v1 v2 : json)
        (before after : list (string * json)) :
  isSensitiveKey key config = true ->
  redactObject (JObject (before ++ (key, v1) :: after)) config
  = redactObject (JObject (before ++ (key, v2) :: after)) config.
Proof.
  intro Hk. cbn [redactObject]. rewrite !foldM_app.
  destruct (foldM _ before []) as [redacted | e]; cbn [bind]; [| reflexivity].
  rewrite !foldM_cons.
  rewrite (@redactProperty_sensitive config _ redacted key v1 Hk).
  rewrite (@redactProperty_sensitive config _ redacted key v2 Hk). reflexivity.
Qed.

(** The default rule set: a string and a nested object under ["password"]. *)
Lemma sensitive_value_is_never_read_witness :
  redactObject (JObject ([("id", JNumber 7)] ++ ("password", JString "x") :: [("keep", JNull)]))
               DEFAULT_CONFIG
  = redactObject (JObject ([("id", JNumber 7)]
                           ++ ("password", JObject [("code", JString "1234")])
                           :: [("keep", JNull)]))
                 DEFAULT_CONFIG.
Proof.
  apply (sensitive_value_is_never_read DEFAULT_CONFIG "password").
  vm_compute. reflexivity.
Defined.

(** X3.  A property whose key is not sensitive, in an object with distinct
    keys: the result holds under that key the redaction of the value when the
    value is an object or an array, the redaction text when it is a string
    that [isSensitiveValue] accepts, and the value itself otherwise. *)
Theorem nonsensitive_property_in_result
        (config : Config) (props out : list (string * json)) (key : string) (value : json) :
  NoDup (keys props) -> key <> "__proto__" -> In (key, value) props ->
  isSensitiveKey key config = false ->
  redactObject (JObject props) config = Ok (JObject out) ->
  (isObjectLike value = true ->
   exists value', redactObject value config = Ok value' /\ getOwn key out = Some value') /\
  (isObjectLike value = false ->
   exists sensitive,
     isSensitiveValue value config = Ok sensitive /\
     getOwn key out
     = Some (if sensitive then JString (redactionText config) else value)).
Proof.
  intros Hnd Hproto Hin Hk H. simpl in H. bind_inv H. injection H as <-.
  destruct (in_split _ _ Hin) as (before & after & ->).
  rewrite foldM_app in Ha. bind_inv Ha. rename a0 into mid.
  rewrite foldM_cons in Ha. bind_inv Ha. rename a0 into added.
  assert (Hafter : ~ In key (keys after)).
  { unfold keys in Hnd. rewrite map_app in Hnd. simpl in Hnd.
    apply NoDup_remove_2 in Hnd. intro Hmem. apply Hnd. apply in_or_app. now right. }
  rewrite (foldM_get_untouched config _ key after added a Hafter Ha).
  split; intro Hv.
  - rewrite (@redactProperty_nested config _ mid key value Hk Hv) in Ha1.
    bind_inv Ha1. injection Ha1 as <-. exists a0. split; [assumption |].
    now apply assign_get.
  - rewrite (@redactProperty_primitive config _ mid key value Hk Hv) in Ha1.
    bind_inv Ha1. injection Ha1 as <-. exists a0. split; [assumption |].
    now apply assign_get.
Qed.

(** The default rule set on [{"code": "1234", "pin": "0000"}]. *)
Lemma nonsensitive_property_in_result_witness :
  exists sensitive,
    isSensitiveValue (JString "1234") DEFAULT_CONFIG = Ok sensitive /\
    getOwn "code" [("code", JString "[REDACTED]")]
    = Some (if sensitive then JString (redactionText DEFAULT_CONFIG) else JString "1234").
Proof.
  apply (nonsensitive_property_in_result DEFAULT_CONFIG
           [("code", JString "1234"); ("pin", JString "0000")]
           [("code", JString "[REDACTED]")] "code" (JString "1234")).
  - repeat constructor; simpl; intuition discriminate.
  - discriminate.
  - now left.
  - vm_compute. reflexivity.
  - vm_compute. reflexivity.
  - reflexivity.
Defined.

(** X4.  Every primitive value in the result, at any depth, is the
    redaction text or occurs in the input: redaction brings in no other
    data. *)
Theorem primitives_come_from_the_input (config : Config) (v out : json) (p : json) :
  redactObject v config = Ok out ->
  isObjectLike p = false -> Occurs p out ->
  p = JString (redactionText config) \/ Occurs p v.
Proof. intros H Hp Hocc. exact (redactObject_origin config v out H p Hp Hocc). Qed.

(** The default rule set with keys preserved, on a nested document. *)
Lemma primitives_come_from_the_input_witness :
  JNumber 5 = JString (redactionText (withPreserveKeysFlag true DEFAULT_CONFIG)) \/
  Occurs (JNumber 5) (JObject [("token", JString "t"); ("list", JArray [JNumber 5])]).
Proof.
  apply (primitives_come_from_the_input
           (withPreserveKeysFlag true DEFAULT_CONFIG)
           (JObject [("token", JString "t"); ("list", JArray [JNumber 5])])
           (JObject [("token", JString "[REDACTED]"); ("list", JArray [JNumber 5])])).
  - vm_compute. reflexivity.
  - reflexivity.
  - eapply occurs_prop; [right; now left |].
    eapply occurs_item; [now left | constructor].
Defined.



(* ===================================================================== *)
(** ** Key patterns as substrings *)
(* ===================================================================== *)

Lemma prefix_iff (t s : string) :
  String.prefix t s = true <-> exists rest, s = (t ++ rest)%string.
Proof.
  revert s. induction t as [| c t IH]; intro s.
  - split; [intros _; now exists s | intros _; now destruct s].
  - destruct s as [| d s]; simpl.
    + split; [discriminate | intros (rest & H); discriminate].
    + destruct (ascii_dec c d) as [-> | Hne].
      * rewrite IH. split; intros (rest & H); exists rest; [now rewrite H |].
        now injection H.
      * split; [discriminate | intros (rest & H)]. injection H as H _. congruence.
Qed.

Lemma includes_iff (s t : string) :
  includes s t = true <-> exists before after, s = (before ++ t ++ after)%string.
Proof.
  induction s as [| c s IH]; cbn [includes].
  - rewrite orb_false_r, prefix_iff. split.
    + intros (rest & H). now exists EmptyString, rest.
    + intros ([| d before] & after & H); [now exists after | discriminate].
  - rewrite orb_true_iff, prefix_iff, IH. split.
    + intros [(rest & H) | (before & after & H)].
      * now exists EmptyString, rest.
      * exists (String c before), after. simpl. now rewrite H.
    + intros ([| d before] & after & H).
      * left. now exists after.
      * right. injection H as _ H. now exists before, after.
Qed.

Lemma isSensitiveKey_substring (key : string) (config : Config) :
  isSensitiveKey key config = true <->
  In (toLowerCase key) (sensitiveProperties config) \/
  exists pattern before after,
    In pattern (sensitiveKeys config) /\
    toLowerCase key = (before ++ toLowerCase pattern ++ after)%string.
Proof.
  unfold isSensitiveKey.
  destruct (existsb (String.eqb (toLowerCase key)) (sensitiveProperties config)) eqn:E.
  - split; [intros _; left | reflexivity].
    apply existsb_exists in E. destruct E as (name & Hin & Heq).
    apply String.eqb_eq in Heq. now rewrite Heq.
  - rewrite existsb_exists. split.
    + intros (pattern & Hin & Hinc). right. apply includes_iff in Hinc.
      destruct Hinc as (before & after & H). now exists pattern, before, after.
    + intros [Hexact | (pattern & before & after & Hin & H)].
      * exfalso. assert (Ht : existsb (String.eqb (toLowerCase key))
                                      (sensitiveProperties config) = true).
        { apply existsb_exists. exists (toLowerCase key).
          split; [assumption | apply String.eqb_refl]. }
        congruence.
      * exists pattern. split; [assumption |]. apply includes_iff. now exists before, after.
Qed.


Lemma foldM_all_sensitive (config : Config) (recur : json -> Result json) :
  (forall key, isSensitiveKey key config = true) ->
  forall props redacted,
    foldM (redactProperty recur config) props redacted
    = Ok (if preserveKeys config
          then fold_left (fun o entry => assign (fst entry) (JString (redactionText config)) o)
                         props redacted
          else redacted).
Proof.
  intro Hall. induction props as [| [key value] props IH]; intro redacted.
  - simpl. now destruct (preserveKeys config).
  - rewrite foldM_cons, (@redactProperty_sensitive config recur redacted key value (Hall key)).
    cbn [bind]. rewrite IH. simpl. now destruct (preserveKeys config).
Qed.

(** X7.  A configuration with the empty string among its key patterns makes
    every key sensitive: without key preservation every object, whatever it
    holds, is redacted to the empty object, for any value patterns. *)
Theorem empty_key_pattern_redacts_everything (config : Config) :
  In "" (sensitiveKeys config) ->
  (forall key, isSensitiveKey key config = true) /\
  (preserveKeys config = false ->
   forall props, redactObject (JObject props) config = Ok (JObject [])).
Proof.
  intro Hin.
  assert (Hall : forall key, isSensitiveKey key config = true).
  { intro key. apply isSensitiveKey_substring. right.
    exists "", "", (toLowerCase key). split; [assumption | reflexivity]. }
  split; [exact Hall |].
  intros Hp props. cbn [redactObject].
  rewrite (foldM_all_sensitive config _ Hall), Hp. reflexivity.
Qed.

(** The configuration a file with the key patterns [[""]] loads to. *)
Lemma empty_key_pattern_redacts_everything_witness :
  isSensitiveKey "title" (spread DEFAULT_CONFIG (onlySensitiveKeys [""])) = true.
Proof.
  apply (empty_key_pattern_redacts_everything (spread DEFAULT_CONFIG (onlySensitiveKeys [""]))).
  simpl. now left.
Defined.

(** X8.  When the configuration file is read and parsed: if it gives no
    value patterns, or an empty list, the loaded configuration is a rule
    set; if it gives at least one, [isSensitiveValue] throws a [TypeError]
    for every string. *)
Theorem file_patterns_break_value_tests
        (readFileSync : string -> Result string)
        (JSON_parse : string -> Result UserConfig)
        (path data : string) (user : UserConfig) :
  path <> "" -> readFileSync path = Ok data -> JSON_parse data = Ok user ->
  let config := loadConfig readFileSync JSON_parse (Some path) in
  (userSensitivePatterns user = None \/ userSensitivePatterns user = Some [] ->
   RuleSet config) /\
  (forall source sources, userSensitivePatterns user = Some (source :: sources) ->
   forall s, isSensitiveValue (JString s) config = Throw TypeError).
Proof.
  intros Hpath Hread Hparse config.
  assert (Hconfig : config = spread DEFAULT_CONFIG user).
  { subst config. unfold loadConfig. destruct path as [| c path]; [congruence |].
    rewrite Hread. simpl. rewrite Hparse. reflexivity. }
  rewrite Hconfig. clear. split.
  - intros [H | H]; unfold RuleSet, spread; simpl; rewrite H; reflexivity.
  - intros source sources H s. unfold isSensitiveValue, spread. simpl. rewrite H.
    reflexivity.
Qed.

(** A file system with one configuration file, which gives one value
    pattern. *)
Lemma file_patterns_break_value_tests_witness :
  isSensitiveValue (JString "hello")
    (loadConfig (oneFile "config.json" patternsFile)
                (parsesTo patternsFile (Ok (onlySensitivePatterns ["^\d{4}$"])))
                (Some "config.json"))
  = Throw TypeError.
Proof.
  apply (proj2 (file_patterns_break_value_tests
                  (oneFile "config.json" patternsFile)
                  (parsesTo patternsFile (Ok (onlySensitivePatterns ["^\d{4}$"])))
                  "config.json" patternsFile (onlySensitivePatterns ["^\d{4}$"])
                  ltac:(discriminate) eq_refl eq_refl) "^\d{4}$" []).
  reflexivity.
Defined.

(* ===================================================================== *)
(** ** Processing a file *)
(* ===================================================================== *)

Lemma fsWrite_contents (fs fs' : FileSystem) (path data : string) :
  fsWrite fs path data = Ok fs' ->
  writable fs path = true /\
  contents fs' path = Some data /\
  forall p, p <> path -> contents fs' p = contents fs p /\ present fs' p = present fs p.
Proof.
  unfold fsWrite. destruct (writable fs path); [| discriminate].
  intro H. injection H as <-. simpl. rewrite String.eqb_refl.
  repeat split; intros; apply String.eqb_neq in H; now rewrite H.
Qed.

Lemma fsRead_ok (fs : FileSystem) (path data : string) :
  fsRead fs path = Ok data <-> contents fs path = Some data.
Proof.
  unfold fsRead. destruct (contents fs path); split; intro H;
    try discriminate; now injection H as ->.
Qed.

(** X9.  When [processFile] returns true, the input was read and parsed,
    the engine returned a value, and the output path holds the serialisation
    of that value; no other path has changed, and in every object of the
    value written a sensitive key is there only when keys are preserved, and
    then holds the redaction text. *)
Theorem processFile_writes_the_redaction
        (JSON_parse_value : string -> Result json) (JSON_stringify : json -> string)
        (fs fs' : FileSystem) (inputPath outputPath : string) (config : Config) :
  processFile JSON_parse_value JSON_stringify fs inputPath outputPath config = (true, fs') ->
  exists inputData jsonData redactedData,
    contents fs inputPath = Some inputData /\
    JSON_parse_value inputData = Ok jsonData /\
    redactObject jsonData config = Ok redactedData /\
    contents fs' outputPath = Some (JSON_stringify redactedData) /\
    (forall p, p <> outputPath -> contents fs' p = contents fs p) /\
    (forall props, Occurs (JObject props) redactedData -> keysRedacted config props).
Proof.
  unfold processFile. intro H.
  destruct (fsRead fs inputPath) as [inputData |] eqn:Hread; [| discriminate].
  cbn [bind] in H.
  destruct (JSON_parse_value inputData) as [jsonData |] eqn:Hparse; [| discriminate].
  cbn [bind] in H.
  destruct (redactObject jsonData config) as [redactedData |] eqn:Hredact; [| discriminate].
  cbn [bind] in H.
  destruct (fsWrite fs outputPath (JSON_stringify redactedData)) as [fs1 |] eqn:Hwrite;
    [| discriminate].
  injection H as <-. apply fsRead_ok in Hread.
  destruct (fsWrite_contents _ _ _ _ Hwrite) as (_ & Hout & Hother).
  exists inputData, jsonData, redactedData.
  split; [exact Hread |]. split; [exact Hparse |]. split; [exact Hredact |].
  split; [exact Hout |]. split.
  - intros p Hp. now apply Hother.
  - intros props Hocc. exact (@redactObject_keysRedacted config jsonData redactedData
                                Hredact props Hocc).
Qed.

(** A file system with one document, processed with the default rule set. *)
Lemma processFile_writes_the_redaction_witness :
  exists inputData jsonData redactedData,
    contents (oneFileSystem "in.json" "text") "in.json" = Some inputData /\
    parsesValueTo "text" (Ok (JObject [("pin", JString "0000"); ("keep", JNull)])) inputData
    = Ok jsonData /\
    redactObject jsonData DEFAULT_CONFIG = Ok redactedData /\
    contents (snd (processFile
                     (parsesValueTo "text" (Ok (JObject [("pin", JString "0000"); ("keep", JNull)])))
                     (fun _ => "out") (oneFileSystem "in.json" "text")
                     "in.json" "out.json" DEFAULT_CONFIG)) "out.json"
    = Some "out" /\
    (forall p, p <> "out.json" ->
       contents (snd (processFile
                        (parsesValueTo "text" (Ok (JObject [("pin", JString "0000"); ("keep", JNull)])))
                        (fun _ => "out") (oneFileSystem "in.json" "text")
                        "in.json" "out.json" DEFAULT_CONFIG)) p
       = contents (oneFileSystem "in.json" "text") p) /\
    (forall props, Occurs (JObject props) redactedData -> keysRedacted DEFAULT_CONFIG props).
Proof.
  apply (processFile_writes_the_redaction
           (parsesValueTo "text" (Ok (JObject [("pin", JString "0000"); ("keep", JNull)])))
           (fun _ => "out") (oneFileSystem "in.json" "text")).
  reflexivity.
Defined.



(* ===================================================================== *)
(** ** The command line *)
(* ===================================================================== *)


(** Once the loop has seen [--dry-run], the flag stays set. *)
Lemma parseArgs_keeps_dryRun :
  forall n args o o',
    List.length args <= n -> dryRun o = true ->
    parseArgs args o = Continue o' -> dryRun o' = true.
Proof.
  induction n as [| n IH]; intros args o o' Hlen Hdry H.
  - destruct args; [| simpl in Hlen; lia]. injection H as <-. exact Hdry.
  - destruct args as [| arg rest]; [injection H as <-; exact Hdry |].
    simpl in Hlen. cbn [parseArgs] in H.
    destruct (String.eqb arg "--help"); [discriminate |].
    destruct (String.eqb arg "--config").
    { destruct rest as [| value rest'].
      - injection H as <-. exact Hdry.
      - eapply (IH rest'); [simpl in Hlen; lia | | exact H]. exact Hdry. }
    destruct (String.eqb arg "--preserve-keys");
      [eapply (IH rest); [lia | | exact H]; exact Hdry |].
    destruct (String.eqb arg "--dry-run");
      [eapply (IH rest); [lia | | exact H]; reflexivity |].
    destruct (String.prefix "--" arg); [discriminate |].
    destruct (unset (inputFile o));
      [eapply (IH rest); [lia | | exact H]; exact Hdry |].
    destruct (unset (outputFile o)); [| discriminate].
    eapply (IH rest); [lia | | exact H]; exact Hdry.
Qed.

(** X11.  With [--dry-run] as the first argument, whatever follows it, [main]
    returns and leaves the file system as it was. *)
Theorem dry_run_writes_nothing
        (JSON_parse_config : string -> Result UserConfig)
        (JSON_parse_value : string -> Result json) (JSON_stringify : json -> string)
        (redactedName : string -> string) (args : list string) (fs : FileSystem) :
  main JSON_parse_config JSON_parse_value JSON_stringify redactedName
       ("--dry-run" :: args) fs
  = (Returns, fs).
Proof.
  unfold main. cbn [parseArgs]. simpl String.eqb. cbv iota.
  destruct (parseArgs args _) as [o | | |] eqn:Hparse; try reflexivity.
  assert (Hdry : dryRun o = true).
  { eapply (parseArgs_keeps_dryRun (List.length args) args); [lia | | exact Hparse].
    reflexivity. }
  destruct (inputFile o) as [input |]; [| reflexivity].
  destruct (String.eqb input ""); [reflexivity |].
  destruct (present fs input); simpl; [| reflexivity].
  rewrite Hdry. reflexivity.
Qed.


(* ===================================================================== *)
(** ** The dry run preview *)
(* ===================================================================== *)

Lemma depth_item (items : list json) (item : json) :
  In item items ->
  depth item <= fold_right (fun item d => Nat.max (depth item) d) 0 items.
Proof.
  induction items as [| x items IH]; simpl; [intros [] |].
  intros [-> | Hin]; [lia | specialize (IH Hin); lia].
Qed.

Lemma depth_entry (props : list (string * json)) (key : string) (value : json) :
  In (key, value) props ->
  depth value <= fold_right (fun entry d => Nat.max (depth (snd entry)) d) 0 props.
Proof.
  induction props as [| x props IH]; simpl; [intros [] |].
  intros [-> | Hin]; [simpl; lia | specialize (IH Hin); lia].
Qed.

Lemma showProperty_Counted (recur : string -> Preview -> Result Preview)
      (path key : string) (value : json) (D : nat) (st : Preview) (r : Preview * bool) :
  (isObjectLike value = true ->
   forall p s s', recur p s = Ok s' -> Counted (9 + D) s s') ->
  fst st <= 9 + D ->
  showProperty recur path st key value = Ok r ->
  Counted (10 + D) st (fst r) /\ (snd r = false -> fst (fst r) <= 9 + D).
Proof.
  intros Hrec Hst H. unfold showProperty in H.
  destruct (isObjectLike value).
  - bind_inv H. injection H as <-. simpl.
    destruct (Hrec eq_refl _ _ _ Ha) as (H1 & H2 & H3).
    split; [repeat split; lia | intros _; lia].
  - destruct (isMarker value); injection H as <-; unfold Counted; cbn [fst snd].
    + rewrite length_app. cbn [List.length]. split; [repeat split; lia |].
      intro Hstop. change ((10 <=? S (fst st))%nat = false) in Hstop.
      apply Nat.leb_gt in Hstop. lia.
    + split; [repeat split; lia | intros _; lia].
Qed.

Lemma Counted_trans (D : nat) (s1 s2 s3 : Preview) :
  Counted (10 + D) s1 s2 -> Counted (10 + D) s2 s3 -> Counted (10 + D) s1 s3.
Proof. unfold Counted. intros (A1 & A2 & A3) (B1 & B2 & B3). repeat split; lia. Qed.

Lemma showEntries_Counted (recur : json -> string -> Preview -> Result Preview)
      (path : string) (D : nat) :
  forall entries,
    (forall key value, In (key, value) entries -> isObjectLike value = true ->
       forall p s s', recur value p s = Ok s' -> Counted (9 + D) s s') ->
    forall st st', fst st <= 9 + D ->
      showEntries recur path entries st = Ok st' -> Counted (10 + D) st st'.
Proof.
  induction entries as [| [key value] rest IH]; intros Hrec st st' Hst H.
  - injection H as <-. repeat split; lia.
  - cbn [showEntries] in H. bind_inv H.
    destruct (showProperty_Counted (recur value) path key value D st a
                (Hrec key value (or_introl eq_refl)) Hst Ha) as (Hstep & Hnext).
    destruct (snd a) eqn:Hstop.
    + injection H as <-. exact Hstep.
    + apply (Counted_trans D st (fst a) st' Hstep).
      apply IH; [| now apply Hnext | exact H].
      intros k v Hin. apply (Hrec k v). now right.
Qed.

Lemma showElements_Counted (recur : json -> string -> Preview -> Result Preview)
      (path : string) (D : nat) :
  forall elements,
    (forall value, In value elements -> isObjectLike value = true ->
       forall p s s', recur value p s = Ok s' -> Counted (9 + D) s s') ->
    forall index st st', fst st <= 9 + D ->
      showElements recur path elements index st = Ok st' -> Counted (10 + D) st st'.
Proof.
  induction elements as [| value rest IH]; intros Hrec index st st' Hst H.
  - injection H as <-. repeat split; lia.
  - cbn [showElements] in H. bind_inv H.
    destruct (showProperty_Counted (recur value) path (indexKey index) value D st a
                (Hrec value (or_introl eq_refl)) Hst Ha) as (Hstep & Hnext).
    destruct (snd a) eqn:Hstop.
    + injection H as <-. exact Hstep.
    + apply (Counted_trans D st (fst a) st' Hstep).
      apply (IH (fun v Hin => Hrec v (or_intror Hin)) (S index));
        [now apply Hnext | exact H].
Qed.

Lemma Counted_weaken (b b' : nat) (s s' : Preview) :
  b <= b' -> Counted b s s' -> Counted b' s s'.
Proof. unfold Counted. intros Hb (A1 & A2 & A3). repeat split; lia. Qed.

Lemma showRedacted_Counted (obj : json) :
  forall path st st',
    showRedacted obj path st = Ok st' -> Counted (9 + depth obj) st st'.
Proof.
  induction obj as [| b | n | s | items IH | props IH] using json_ind;
    intros path st st' H; cbn [showRedacted] in H;
    destruct (10 <=? fst st)%nat eqn:Hten;
    try (injection H as <-; repeat split; lia); try discriminate.
  - apply Nat.leb_gt in Hten. cbn [depth].
    set (D := fold_right (fun item d => Nat.max (depth item) d) 0 items) in *.
    replace (9 + S D) with (10 + D) by lia.
    apply (showElements_Counted showRedacted path D items) with (index := 0);
      [| lia | exact H].
    intros value Hin _ p s s' Hs. rewrite Forall_forall in IH.
    apply (Counted_weaken (9 + depth value)); [| now apply (IH value Hin p)].
    pose proof (depth_item items value Hin). fold D in H0. lia.
  - apply Nat.leb_gt in Hten. cbn [depth].
    set (D := fold_right (fun entry d => Nat.max (depth (snd entry)) d) 0 props) in *.
    replace (9 + S D) with (10 + D) by lia.
    apply (showEntries_Counted showRedacted path D props); [| lia | exact H].
    intros key value Hin _ p s s' Hs. rewrite Forall_forall in IH.
    apply (Counted_weaken (9 + depth value)); [| now apply (IH (key, value) Hin p)].
    pose proof (depth_entry props key value Hin). fold D in H0. lia.
Qed.

(** X13.  A preview that starts at count 0 writes as many lines as it
    counts, and at most 9 plus the nesting depth of the value: 10 for an
    object of primitives, one more for every level of nesting. *)
Theorem preview_line_bound (obj : json) (path : string) (count : nat) (lines : list string) :
  showRedacted obj path (0, []) = Ok (count, lines) ->
  List.length lines = count /\ count <= 9 + depth obj.
Proof.
  intro H. destruct (showRedacted_Counted obj path (0, []) (count, lines) H)
    as (_ & Hbound & Hlines).
  simpl in *. lia.
Qed.

(** The bound is reached: a document of depth 2 with eleven lines. *)
Lemma preview_line_bound_witness :
  List.length (map (fun i => ("  a." ++ indexKey i ++ ": [REDACTED]")%string) (List.seq 0 10)
               ++ ["  b: [REDACTED]"]) = 11 /\
  11 <= 9 + depth elevenMarkers.
Proof.
  apply (preview_line_bound elevenMarkers "" 11).
  vm_compute. reflexivity.
Defined.

Lemma isMarker_iff (value : json) :
  isMarker value = true <-> value = JString "[REDACTED]".
Proof.
  destruct value; simpl; try (split; [discriminate | intro H; discriminate H]).
  rewrite String.eqb_eq. split; [now intros -> | now intros [= ->]].
Qed.

Lemma showEntries_quiet (recur : json -> string -> Preview -> Result Preview)
      (path : string) :
  forall entries st,
    (forall key value, In (key, value) entries ->
       isMarker value = false /\
       (isObjectLike value = true -> forall p s, recur value p s = Ok s)) ->
    showEntries recur path entries st = Ok st.
Proof.
  induction entries as [| [key value] rest IH]; intros st Hall; [reflexivity |].
  destruct (Hall key value (or_introl eq_refl)) as (Hmark & Hrec).
  cbn [showEntries]. unfold showProperty.
  destruct (isObjectLike value).
  - rewrite (Hrec eq_refl). cbn [bind fst snd]. apply IH.
    intros k v Hin. apply (Hall k v). now right.
  - rewrite Hmark. cbn [bind fst snd]. apply IH.
    intros k v Hin. apply (Hall k v). now right.
Qed.

Lemma showElements_quiet (recur : json -> string -> Preview -> Result Preview)
      (path : string) :
  forall elements index st,
    (forall value, In value elements ->
       isMarker value = false /\
       (isObjectLike value = true -> forall p s, recur value p s = Ok s)) ->
    showElements recur path elements index st = Ok st.
Proof.
  induction elements as [| value rest IH]; intros index st Hall; [reflexivity |].
  destruct (Hall value (or_introl eq_refl)) as (Hmark & Hrec).
  cbn [showElements]. unfold showProperty.
  destruct (isObjectLike value).
  - rewrite (Hrec eq_refl). cbn [bind fst snd]. apply IH.
    intros v Hin. apply (Hall v). now right.
  - rewrite Hmark. cbn [bind fst snd]. apply IH.
    intros v Hin. apply (Hall v). now right.
Qed.

(** A value other than null in which the marker occurs nowhere: the preview
    writes nothing. *)
Lemma showRedacted_quiet (obj : json) :
  obj <> JNull -> (forall p, Occurs p obj -> isMarker p = false) ->
  forall path st, showRedacted obj path st = Ok st.
Proof.
  induction obj as [| b | n | s | items IH | props IH] using json_ind;
    intros Hnull Hfree path st; cbn [showRedacted];
    destruct (10 <=? fst st)%nat; try reflexivity; try congruence.
  - apply showElements_quiet. intros value Hin. split.
    + apply Hfree. eapply occurs_item; [exact Hin | constructor].
    + intros Hobj p s. rewrite Forall_forall in IH. apply (IH value Hin).
      * intro Heq. rewrite Heq in Hobj. discriminate.
      * intros q Hq. apply Hfree. eapply occurs_item; eassumption.
  - apply showEntries_quiet. intros key value Hin. split.
    + apply Hfree. eapply occurs_prop; [exact Hin | constructor].
    + intros Hobj p s. rewrite Forall_forall in IH. apply (IH (key, value) Hin).
      * intro Heq. simpl in Heq. rewrite Heq in Hobj. discriminate.
      * intros q Hq. apply Hfree. eapply occurs_prop; eassumption.
Qed.

(** X14.  With a rule set whose redaction text is not ["[REDACTED]"], the
    dry run of a readable document, other than null, in which that string
    occurs nowhere prints no line, whatever the run would redact: the
    preview looks for the literal ["[REDACTED]"], not for the configured
    text. *)
Theorem dry_run_is_silent_with_another_text
        (JSON_parse_value : string -> Result json)
        (fs : FileSystem) (input inputData : string) (jsonData : json) (config : Config) :
  RuleSet config -> redactionText config <> "[REDACTED]" ->
  contents fs input = Some inputData -> JSON_parse_value inputData = Ok jsonData ->
  jsonData <> JNull -> (forall p, Occurs p jsonData -> isMarker p = false) ->
  dryRunPreview JSON_parse_value fs input config = Ok [].
Proof.
  intros rules Htext Hread Hparse Hnull Hfree.
  unfold dryRunPreview, fsRead. rewrite Hread. cbn [bind]. rewrite Hparse. cbn [bind].
  destruct (@redactObject_total config rules jsonData) as (out & Hout).
  rewrite Hout. cbn [bind].
  rewrite showRedacted_quiet; [reflexivity | |].
  - intros ->. pose proof (@redactObject_objectLike config jsonData JNull Hout) as Hprim.
    rewrite (@redactObject_primitive config jsonData (eq_sym Hprim)) in Hout.
    injection Hout as ->. now apply Hnull.
  - intros p Hp. destruct (isMarker p) eqn:Hmark; [| reflexivity].
    apply isMarker_iff in Hmark. subst p.
    destruct (redactObject_origin config jsonData out Hout (JString "[REDACTED]")
                eq_refl Hp) as [Heq | Hin].
    + injection Heq as Heq. congruence.
    + pose proof (Hfree _ Hin) as Hnone. discriminate Hnone.
Qed.

(** The default rules with the redaction text ["***"], on a document with a
    sensitive key. *)
Lemma dry_run_is_silent_with_another_text_witness :
  dryRunPreview (parsesValueTo "text" (Ok (JObject [("pin", JString "0000")])))
                (oneFileSystem "in.json" "text") "in.json"
                (withPreserveKeysFlag true
                   (spread DEFAULT_CONFIG
                      {| userSensitiveKeys := None; userSensitiveProperties := None;
                         userSensitivePatterns := None; userRedactionText := Some "***";
                         userPreserveKeys := None |}))
  = Ok [].
Proof.
  apply (dry_run_is_silent_with_another_text
           (parsesValueTo "text" (Ok (JObject [("pin", JString "0000")])))
           (oneFileSystem "in.json" "text") "in.json" "text"
           (JObject [("pin", JString "0000")])).
  - reflexivity.
  - discriminate.
  - reflexivity.
  - reflexivity.
  - discriminate.
  - intros p Hp. inversion Hp as [| | props key value Hin Hvalue]; subst; [reflexivity |].
    destruct Hin as [[= <- <-] | []]. inversion Hvalue. reflexivity.
Defined.

(* ===================================================================== *)
(** ** Copies of objects *)
(* ===================================================================== *)

Lemma defineOwn_same (key : string) (v : json) (o : list (string * json)) :
  getOwn key o = Some v -> defineOwn key v o = o.
Proof.
  induction o as [| [k w] o IH]; simpl; [discriminate |].
  destruct (String.eqb_spec k key) as [-> | Hne]; intro H.
  - now injection H as ->.
  - now rewrite IH.
Qed.

Lemma getOwn_in (key : string) (v : json) (o : list (string * json)) :
  getOwn key o = Some v -> In (key, v) o.
Proof.
  induction o as [| [k w] o IH]; simpl; [discriminate |].
  destruct (String.eqb_spec k key) as [-> | Hne]; intro H.
  - injection H as ->. now left.
  - right. now apply IH.
Qed.

Lemma getOwn_none (key : string) (o : list (string * json)) :
  getOwn key o = None <-> ~ In key (keys o).
Proof.
  induction o as [| [k w] o IH]; simpl; [tauto |].
  destruct (String.eqb_spec k key) as [-> | Hne].
  - split; [discriminate | intro H; exfalso; apply H; now left].
  - rewrite IH. split; [intros H [Heq | Hin]; [contradiction | auto] | auto].
Qed.

Lemma in_getOwn (key : string) (v : json) (o : list (string * json)) :
  NoDup (keys o) -> In (key, v) o -> getOwn key o = Some v.
Proof.
  induction o as [| [k w] o IH]; simpl; intros Hnd Hin; [destruct Hin |].
  inversion Hnd as [| ? ? Hfresh Hrest]; subst.
  destruct Hin as [[= -> ->] | Hin]; [now rewrite String.eqb_refl |].
  destruct (String.eqb_spec k key) as [-> | Hne]; [| now apply IH].
  exfalso. apply Hfresh. unfold keys. apply in_map_iff. now exists (key, v).
Qed.

Lemma copy_fold_NoDup (entries target : list (string * json)) :
  NoDup (keys target) ->
  NoDup (keys (fold_left (fun o entry => defineOwn (fst entry) (snd entry) o)
                         entries target)).
Proof.
  revert target. induction entries as [| [k w] entries IH]; intros target H; [exact H |].
  simpl. apply IH. now apply defineOwn_NoDup.
Qed.

Lemma copy_fold_fresh (entries target : list (string * json)) :
  NoDup (keys target ++ keys entries) ->
  fold_left (fun o entry => defineOwn (fst entry) (snd entry) o) entries target
  = target ++ entries.
Proof.
  revert target. induction entries as [| [k w] entries IH]; intros target H.
  - simpl. now rewrite app_nil_r.
  - simpl. rewrite defineOwn_fresh.
    + rewrite IH; [now rewrite <- app_assoc |].
      rewrite keys_app. simpl. now rewrite <- app_assoc.
    + simpl in H. apply NoDup_remove_2 in H. intro Hin. apply H.
      apply in_or_app. now left.
Qed.

Lemma copyDataProperties_NoDup (source : json) :
  NoDup (keys (copyDataProperties [] source)).
Proof. apply copy_fold_NoDup. constructor. Qed.

(** The copy of an object with distinct keys has the same properties in the
    same order. *)
Lemma copyDataProperties_object (props : list (string * json)) :
  NoDup (keys props) -> copyDataProperties [] (JObject props) = props.
Proof. intro H. unfold copyDataProperties. simpl. now rewrite copy_fold_fresh. Qed.

Lemma distinct_NoDup (l : list string) : distinct l = true -> NoDup l.
Proof.
  induction l as [| x l IH]; simpl; intro H; [constructor |].
  apply andb_true_iff in H. destruct H as (Hx & Hl).
  constructor; [| now apply IH].
  intro Hin. apply negb_true_iff in Hx.
  assert (Ht : existsb (String.eqb x) l = true).
  { apply existsb_exists. exists x. split; [assumption | apply String.eqb_refl]. }
  congruence.
Qed.

Lemma distinctKeysb_sound (v : json) : distinctKeysb v = true -> distinctKeys v.
Proof.
  induction v as [| b | n | s | items IH | props IH] using json_ind;
    intros H ps Hocc; try (inversion Hocc; fail).
  - cbn [distinctKeysb] in H. rewrite forallb_forall in H. rewrite Forall_forall in IH.
    inversion Hocc as [| items' item Hin Hitem |]; subst.
    exact (IH item Hin (H item Hin) ps Hitem).
  - cbn [distinctKeysb] in H. apply andb_true_iff in H. destruct H as (Hkeys & Hall).
    rewrite forallb_forall in Hall. rewrite Forall_forall in IH.
    inversion Hocc as [| | props' key value Hin Hvalue]; subst.
    + now apply distinct_NoDup.
    + exact (IH (key, value) Hin (Hall (key, value) Hin) ps Hvalue).
Qed.

(* ===================================================================== *)
(** ** Normalizing items *)
(* ===================================================================== *)

Lemma allowedTypes_truthy (type : string) :
  In type allowedTypes -> truthy (JString type) = true /\ isAllowedType (JString type) = true.
Proof.
  intros [<- | [<- | [<- | []]]]; split; reflexivity.
Qed.

Lemma isAllowedType_iff (type : json) :
  isAllowedType type = true <-> exists s, type = JString s /\ In s allowedTypes.
Proof.
  destruct type; cbn [isAllowedType];
    try (split; [discriminate | intros (s0 & H & _); discriminate]).
  rewrite existsb_exists. split.
  - intros (x & Hin & Heq). apply String.eqb_eq in Heq. subst x. now exists s.
  - intros (s0 & [= <-] & Hin). exists s. split; [assumption | apply String.eqb_refl].
Qed.

Lemma getProperty_object (v : json) (name : string) (w : json) :
  getProperty v name = Some w ->
  exists props, v = JObject props /\ getOwn name props = Some w /\ truthy v = true.
Proof. destruct v; simpl; try discriminate. intro H. now exists props. Qed.

(** [normalizeItem] returns null, or the copy of the item with its [data]
    replaced, and the second exactly for an item whose [data] has one of the
    allowed types. *)
Lemma normalizeItem_cases (item : json) :
  (normalizeItem item = JNull /\
   ~ exists data type, getProperty item "data" = Some data /\
                       getProperty data "type" = Some (JString type) /\
                       In type allowedTypes) \/
  (exists data type,
     getProperty item "data" = Some data /\
     getProperty data "type" = Some (JString type) /\ In type allowedTypes /\
     normalizeItem item
     = JObject (defineOwn "data" (normalizedData data) (copyDataProperties [] item))).
Proof.
  unfold normalizeItem.
  destruct (getProperty item "data") as [data |] eqn:Hdata.
  2:{ left. split; [now destruct (negb (truthy item)) |].
      intros (d & t & H & _). discriminate. }
  destruct (getProperty_object _ _ _ Hdata) as (props & -> & _ & _). cbn [truthy negb].
  destruct (getProperty data "type") as [type |] eqn:Htype.
  2:{ left. split; [now destruct (negb (truthy data)) |].
      intros (d & t & [= <-] & H & _). congruence. }
  destruct (getProperty_object _ _ _ Htype) as (dprops & -> & _ & _). cbn [truthy negb].
  destruct (isAllowedType type) eqn:Hallowed.
  - apply isAllowedType_iff in Hallowed. destruct Hallowed as (s & -> & Hin).
    destruct (allowedTypes_truthy s Hin) as (Htruthy & _).
    rewrite Htruthy. cbn [negb]. right. now exists (JObject dprops), s.
  - left. split; [now destruct (negb (truthy type)) |].
    intros (d & t & [= <-] & Ht & Hin). rewrite Htype in Ht. injection Ht as ->.
    destruct (allowedTypes_truthy t Hin) as (_ & H). congruence.
Qed.

(** X15.  [normalizeItem] keeps an item, returning an object and not null,
    exactly when the item has a property [data] whose property [type] is one
    of the strings ["login"], ["note"] and ["identity"]. *)
Theorem normalizeItem_keeps_allowed_types (item : json) :
  normalizeItem item <> JNull <->
  exists data type,
    getProperty item "data" = Some data /\
    getProperty data "type" = Some (JString type) /\
    In type allowedTypes.
Proof.
  destruct (normalizeItem_cases item) as [(Hnull & Hnot) | (data & type & Hd & Ht & Hin & Heq)].
  - split; [intro H; contradiction | intro H; contradiction].
  - split; [intros _; now exists data, type | intros _; rewrite Heq; discriminate].
Qed.

(** The object literal that becomes [data], for a [data] with distinct
    keys. *)
Lemma normalizedData_spec (dprops : list (string * json)) :
  NoDup (keys dprops) ->
  exists dout,
    normalizedData (JObject dprops) = JObject dout /\
    NoDup (keys dout) /\
    getOwn "extraFields" dout = Some (JArray []) /\
    (forall k, k <> "extraFields" -> k <> "content" -> getOwn k dout = getOwn k dprops) /\
    match getOwn "content" dprops with
    | Some content =>
        getOwn "content" dout
        = Some (if truthy content then normalizedContent content else content)
    | None => getOwn "content" dout = None
    end.
Proof.
  intro Hnd. unfold normalizedData. rewrite copyDataProperties_object by assumption.
  cbn [getProperty].
  set (o := defineOwn "extraFields" (JArray []) dprops).
  assert (Ho : NoDup (keys o)) by now apply defineOwn_NoDup.
  assert (Hextra : getOwn "extraFields" o = Some (JArray [])) by apply defineOwn_get.
  assert (Hother : forall k, k <> "extraFields" -> getOwn k o = getOwn k dprops).
  { intros k Hk. now apply defineOwn_get_other. }
  destruct (getOwn "content" dprops) as [content |] eqn:Hcontent.
  - destruct (truthy content).
    + eexists. split; [reflexivity |]. split; [now apply defineOwn_NoDup |].
      split; [rewrite defineOwn_get_other by discriminate; exact Hextra |].
      split; [| apply defineOwn_get].
      intros k Hk Hc. rewrite defineOwn_get_other by assumption. now apply Hother.
    + exists o. repeat split; auto.
      rewrite Hother by discriminate. exact Hcontent.
  - exists o. repeat split; auto.
    rewrite Hother by discriminate. exact Hcontent.
Qed.

Lemma normalizedContent_twice (content : json) :
  normalizedContent (normalizedContent content) = normalizedContent content.
Proof.
  unfold normalizedContent at 2 3.
  set (x := defineOwn "totpUri" (JString "") (copyDataProperties [] content)).
  unfold normalizedContent. rewrite copyDataProperties_object.
  - rewrite defineOwn_same; [reflexivity | apply defineOwn_get].
  - apply defineOwn_NoDup, copyDataProperties_NoDup.
Qed.

Lemma normalizedData_twice (dprops : list (string * json)) :
  NoDup (keys dprops) ->
  normalizedData (normalizedData (JObject dprops)) = normalizedData (JObject dprops).
Proof.
  intro Hnd.
  destruct (normalizedData_spec dprops Hnd) as (dout & Heq & Hout & Hextra & _ & Hcontent).
  rewrite Heq. unfold normalizedData. rewrite copyDataProperties_object by assumption.
  rewrite (defineOwn_same _ _ _ Hextra). cbn [getProperty].
  destruct (getOwn "content" dprops) as [content |].
  - rewrite Hcontent. destruct (truthy content) eqn:Htruthy.
    + cbn [normalizedContent truthy]. rewrite normalizedContent_twice.
      now rewrite (defineOwn_same _ _ _ Hcontent).
    + now rewrite Htruthy.
  - now rewrite Hcontent.
Qed.

(** X16.  On an item it keeps, whose objects have distinct keys,
    [normalizeItem] leaves every property other than [data] as it is, sets
    [extraFields] of [data] to the empty array, and leaves every property of
    [data] other than [extraFields] and [content] as it is. *)
Theorem normalizeItem_fields (item data : json) (type : string) :
  distinctKeys item ->
  getProperty item "data" = Some data ->
  getProperty data "type" = Some (JString type) -> In type allowedTypes ->
  (forall k, k <> "data" -> getProperty (normalizeItem item) k = getProperty item k) /\
  exists data',
    getProperty (normalizeItem item) "data" = Some data' /\
    getProperty data' "extraFields" = Some (JArray []) /\
    (forall k, k <> "extraFields" -> k <> "content" ->
               getProperty data' k = getProperty data k).
Proof.
  intros Hdistinct Hdata Htype Hin.
  destruct (normalizeItem_cases item) as [(_ & Hnot) | (d & t & Hd & _ & _ & Heq)].
  { exfalso. apply Hnot. now exists data, type. }
  rewrite Hdata in Hd. injection Hd as <-. rewrite Heq.
  destruct (getProperty_object _ _ _ Hdata) as (props & -> & Hget & _).
  destruct (getProperty_object _ _ _ Htype) as (dprops & -> & _ & _).
  assert (Hprops : NoDup (keys props)) by (apply Hdistinct; constructor).
  assert (Hdprops : NoDup (keys dprops)).
  { apply Hdistinct. eapply occurs_prop; [exact (getOwn_in _ _ _ Hget) | constructor]. }
  rewrite copyDataProperties_object by assumption. cbn [getProperty].
  destruct (normalizedData_spec dprops Hdprops) as (dout & Hout & _ & Hextra & Hother & _).
  split.
  - intros k Hk. now apply defineOwn_get_other.
  - exists (JObject dout). rewrite defineOwn_get, Hout. repeat split; auto.
Qed.

(** A login item with a field beside its data. *)
Lemma normalizeItem_fields_witness :
  getProperty
    (normalizeItem (JObject [("id", JNumber 1);
                             ("data", JObject [("type", JString "login");
                                               ("extraFields", JArray [JNull])])]))
    "id"
  = getProperty
      (JObject [("id", JNumber 1);
                ("data", JObject [("type", JString "login");
                                  ("extraFields", JArray [JNull])])])
      "id".
Proof.
  apply (proj1 (normalizeItem_fields
                  (JObject [("id", JNumber 1);
                            ("data", JObject [("type", JString "login");
                                              ("extraFields", JArray [JNull])])])
                  (JObject [("type", JString "login"); ("extraFields", JArray [JNull])])
                  "login"
                  ltac:(apply distinctKeysb_sound; reflexivity)
                  eq_refl eq_refl ltac:(now left))).
  discriminate.
Defined.

(** X17.  On an item it keeps, whose objects have distinct keys, with a
    property [content] in its [data]: a content that is falsy stays as it is;
    a content that is truthy becomes an object whose [totpUri] is the empty
    string, with the other properties of the content when that is an
    object. *)
Theorem normalizeItem_content (item data content : json) (type : string) :
  distinctKeys item ->
  getProperty item "data" = Some data ->
  getProperty data "type" = Some (JString type) -> In type allowedTypes ->
  getProperty data "content" = Some content ->
  exists data',
    getProperty (normalizeItem item) "data" = Some data' /\
    (truthy content = false -> getProperty data' "content" = Some content) /\
    (truthy content = true ->
     exists content',
       getProperty data' "content" = Some content' /\
       getProperty content' "totpUri" = Some (JString "") /\
       forall cprops, content = JObject cprops ->
         forall k, k <> "totpUri" -> getProperty content' k = getOwn k cprops).
Proof.
  intros Hdistinct Hdata Htype Hin Hcontent.
  destruct (normalizeItem_cases item) as [(_ & Hnot) | (d & t & Hd & _ & _ & Heq)].
  { exfalso. apply Hnot. now exists data, type. }
  rewrite Hdata in Hd. injection Hd as <-. rewrite Heq.
  destruct (getProperty_object _ _ _ Hdata) as (props & -> & Hget & _).
  destruct (getProperty_object _ _ _ Htype) as (dprops & -> & _ & _).
  assert (Hdprops : NoDup (keys dprops)).
  { apply Hdistinct. eapply occurs_prop; [exact (getOwn_in _ _ _ Hget) | constructor]. }
  cbn [getProperty] in *.
  destruct (normalizedData_spec dprops Hdprops) as (dout & Hout & _ & _ & _ & Hc).
  rewrite Hcontent in Hc.
  exists (JObject dout). rewrite defineOwn_get, Hout. split; [reflexivity |].
  cbn [getProperty]. split; intro Htruthy; rewrite Htruthy in Hc; [exact Hc |].
  exists (normalizedContent content). split; [exact Hc |].
  unfold normalizedContent. cbn [getProperty]. split; [apply defineOwn_get |].
  intros cprops -> k Hk. rewrite defineOwn_get_other by assumption.
  rewrite copyDataProperties_object; [reflexivity |].
  apply Hdistinct. eapply occurs_prop; [exact (getOwn_in _ _ _ Hget) |].
  eapply occurs_prop; [exact (getOwn_in _ _ _ Hcontent) | constructor].
Qed.

(** A login item whose content is the number 0. *)
Lemma normalizeItem_content_witness :
  exists data',
    getProperty
      (normalizeItem (JObject [("data", JObject [("type", JString "login");
                                                 ("content", JNumber 0)])]))
      "data" = Some data' /\
    getProperty data' "content" = Some (JNumber 0).
Proof.
  destruct (normalizeItem_content
              (JObject [("data", JObject [("type", JString "login");
                                          ("content", JNumber 0)])])
              (JObject [("type", JString "login"); ("content", JNumber 0)])
              (JNumber 0) "login"
              ltac:(apply distinctKeysb_sound; reflexivity)
              eq_refl eq_refl ltac:(now left) eq_refl)
    as (data' & Hdata & Hfalsy & _).
  exists data'. split; [exact Hdata | exact (Hfalsy eq_refl)].
Defined.

(** The [data] of an item has distinct keys when the objects of the item
    have. *)
Lemma distinctKeys_data (props dprops : list (string * json)) :
  distinctKeys (JObject props) -> getOwn "data" props = Some (JObject dprops) ->
  NoDup (keys dprops).
Proof.
  intros Hdistinct Hget. apply Hdistinct.
  eapply occurs_prop; [exact (getOwn_in _ _ _ Hget) | constructor].
Qed.

Lemma normalizeItem_twice (item : json) :
  distinctKeys item -> normalizeItem (normalizeItem item) = normalizeItem item.
Proof.
  intro Hdistinct.
  destruct (normalizeItem_cases item) as [(-> & _) | (data & type & Hd & Ht & Hin & Heq)];
    [reflexivity |].
  destruct (getProperty_object _ _ _ Hd) as (props & -> & Hget & _).
  destruct (getProperty_object _ _ _ Ht) as (dprops & -> & Htype & _).
  pose proof (distinctKeys_data props dprops Hdistinct Hget) as Hdprops.
  destruct (normalizedData_spec dprops Hdprops) as (dout & Hout & _ & _ & Hother & _).
  rewrite Heq.
  set (out := defineOwn "data" (normalizedData (JObject dprops))
                        (copyDataProperties [] (JObject props))).
  assert (Hnd : NoDup (keys out)) by apply defineOwn_NoDup, copyDataProperties_NoDup.
  assert (Hdata' : getOwn "data" out = Some (normalizedData (JObject dprops)))
    by apply defineOwn_get.
  destruct (normalizeItem_cases (JObject out))
    as [(_ & Hnot) | (data' & type' & Hd' & _ & _ & Heq')].
  - exfalso. apply Hnot. exists (normalizedData (JObject dprops)), type.
    split; [exact Hdata' |]. split; [| exact Hin].
    rewrite Hout. cbn [getProperty]. rewrite Hother by discriminate. exact Htype.
  - cbn [getProperty] in Hd'. rewrite Hdata' in Hd'. injection Hd' as <-.
    rewrite Heq'. rewrite copyDataProperties_object by assumption.
    rewrite normalizedData_twice by assumption.
    now rewrite (defineOwn_same _ _ _ Hdata').
Qed.

(** X18.  [normalizeItem] is idempotent on an item whose objects have
    distinct keys: normalizing what it returned returns the same. *)
Theorem normalizeItem_idempotent (item : json) :
  distinctKeys item -> normalizeItem (normalizeItem item) = normalizeItem item.
Proof. exact (normalizeItem_twice item). Qed.

(** A note with a string as content. *)
Lemma normalizeItem_idempotent_witness :
  normalizeItem (normalizeItem (JObject [("data", JObject [("type", JString "note");
                                                           ("content", JString "ab")])]))
  = normalizeItem (JObject [("data", JObject [("type", JString "note");
                                              ("content", JString "ab")])]).
Proof.
  apply (normalizeItem_idempotent
           (JObject [("data", JObject [("type", JString "note");
                                       ("content", JString "ab")])])).
  apply distinctKeysb_sound. reflexivity.
Defined.

(* ===================================================================== *)
(** ** Normalizing vaults and documents *)
(* ===================================================================== *)

(** [normalizeVault] returns the vault as it is, the copy of the vault with
    its items normalized, or throws. *)
Lemma normalizeVault_cases (vault : json) :
  (normalizeVault vault = Ok vault /\
   (getProperty vault "items" = None \/
    exists items, getProperty vault "items" = Some items /\ truthy items = false)) \/
  (exists elements,
     getProperty vault "items" = Some (JArray elements) /\
     normalizeVault vault
     = Ok (JObject (defineOwn "items"
                      (JArray (filter (fun item => negb (isNull item))
                                      (map normalizeItem elements)))
                      (copyDataProperties [] vault)))) \/
  (exists items,
     getProperty vault "items" = Some items /\ truthy items = true /\
     (forall elements, items <> JArray elements) /\
     normalizeVault vault = Throw TypeError).
Proof.
  unfold normalizeVault.
  destruct (getProperty vault "items") as [items |] eqn:Hitems.
  2:{ left. split; [now destruct (negb (truthy vault)) | now left]. }
  destruct (getProperty_object _ _ _ Hitems) as (props & -> & _ & _). cbn [truthy negb].
  destruct (truthy items) eqn:Htruthy; cbn [negb].
  - destruct items; try (right; right; eexists; repeat split; try reflexivity;
                         try exact Htruthy; intros elements H; discriminate).
    right. left. now exists items.
  - left. split; [reflexivity |]. right. now exists items.
Qed.

(** X19.  [normalizeVault] throws exactly when the vault has a property
    [items] that is truthy and not an array, and what it throws is a
    [TypeError]. *)
Theorem normalizeVault_throws_iff (vault : json) :
  (forall e, normalizeVault vault = Throw e -> e = TypeError) /\
  (normalizeVault vault = Throw TypeError <->
   exists items,
     getProperty vault "items" = Some items /\ truthy items = true /\
     forall elements, items <> JArray elements).
Proof.
  destruct (normalizeVault_cases vault)
    as [(Heq & _) | [(elements & Hitems & Heq) | (items & Hitems & Htruthy & Hnot & Heq)]];
    rewrite Heq.
  - split; [discriminate |]. split; [discriminate |].
    intros (items & Hitems & Htruthy & Hnot).
    destruct (normalizeVault_cases vault)
      as [(_ & [Hnone | (i & Hi & Hfalsy)]) | [(el & Hi & _) | (i & _ & _ & _ & Hthrow)]];
      try congruence.
  - split; [discriminate |]. split; [discriminate |].
    intros (items & Hi & _ & Hnot). rewrite Hitems in Hi. injection Hi as <-.
    now destruct (Hnot elements).
  - split; [now intros e [= <-] |]. split; [| reflexivity]. intros _. now exists items.
Qed.

Lemma in_normalized_items (x : json) (elements : list json) :
  In x (filter (fun item => negb (isNull item)) (map normalizeItem elements)) ->
  exists e, In e elements /\ x = normalizeItem e /\ x <> JNull.
Proof.
  rewrite filter_In, in_map_iff. intros ((e & <- & Hin) & Hnull).
  exists e. repeat split; [assumption |]. intro H. rewrite H in Hnull. discriminate.
Qed.

(** X20.  When [normalizeVault] returns a vault with an array of items, from
    a vault whose objects have distinct keys, every item of the array has a
    [data] of an allowed type with an empty [extraFields], and the array is
    no longer than the array of items of the input. *)
Theorem normalizeVault_items_are_normalized (vault out : json) (items' : list json) :
  distinctKeys vault ->
  normalizeVault vault = Ok out ->
  getProperty out "items" = Some (JArray items') ->
  Forall normalizedItem items' /\
  exists elements,
    getProperty vault "items" = Some (JArray elements) /\
    List.length items' <= List.length elements.
Proof.
  intros Hdistinct Hrun Hitems'.
  destruct (normalizeVault_cases vault)
    as [(Heq & Hnone) | [(elements & Hitems & Heq) | (items & _ & _ & _ & Heq)]];
    rewrite Heq in Hrun; [| | discriminate]; injection Hrun as <-.
  - exfalso. destruct Hnone as [Hnone | (items & Hi & Hfalsy)]; [congruence |].
    rewrite Hitems' in Hi. injection Hi as <-. discriminate.
  - cbn [getProperty] in Hitems'. rewrite defineOwn_get in Hitems'.
    injection Hitems' as <-. split.
    + apply Forall_forall. intros x Hx.
      destruct (in_normalized_items x elements Hx) as (e & He & -> & Hkept).
      destruct (normalizeItem_cases e) as [(Hnull & _) | (data & type & Hd & Ht & Hin & Hform)];
        [contradiction |].
      destruct (getProperty_object _ _ _ Hd) as (props & -> & Hget & _).
      destruct (getProperty_object _ _ _ Ht) as (dprops & -> & Htype & _).
      destruct (getProperty_object _ _ _ Hitems) as (vprops & -> & Hvget & _).
      assert (Hdprops : NoDup (keys dprops)).
      { apply Hdistinct. eapply occurs_prop; [exact (getOwn_in _ _ _ Hvget) |].
        eapply occurs_item; [exact He |].
        eapply occurs_prop; [exact (getOwn_in _ _ _ Hget) | constructor]. }
      destruct (normalizedData_spec dprops Hdprops) as (dout & Hout & _ & Hextra & Hother & _).
      exists (JObject dout), type. rewrite Hform. cbn [getProperty].
      rewrite defineOwn_get, Hout. repeat split; auto.
      rewrite Hother by discriminate. exact Htype.
    + exists elements. split; [exact Hitems |].
      etransitivity; [apply filter_length_le | now rewrite length_map].
Qed.

(** A vault with a login, a null and an alias. *)
Lemma normalizeVault_items_are_normalized_witness :
  Forall normalizedItem
         [JObject [("data", JObject [("type", JString "login"); ("extraFields", JArray [])])]].
Proof.
  apply (normalizeVault_items_are_normalized
           (JObject [("items", JArray [JObject [("data", JObject [("type", JString "login")])];
                                       JNull;
                                       JObject [("data", JObject [("type", JString "alias")])]])])
           (JObject [("items",
                      JArray [JObject [("data", JObject [("type", JString "login");
                                                         ("extraFields", JArray [])])]])])).
  - apply distinctKeysb_sound. reflexivity.
  - vm_compute. reflexivity.
  - reflexivity.
Defined.

Lemma normalizeVault_twice (vault out : json) :
  distinctKeys vault -> normalizeVault vault = Ok out -> normalizeVault out = Ok out.
Proof.
  intros Hdistinct Hrun.
  destruct (normalizeVault_cases vault)
    as [(Heq & _) | [(elements & Hitems & Heq) | (items & _ & _ & _ & Heq)]];
    rewrite Heq in Hrun; [| | discriminate]; injection Hrun as <-; [exact Heq |].
  destruct (getProperty_object _ _ _ Hitems) as (vprops & -> & Hvget & _).
  set (kept := filter (fun item => negb (isNull item)) (map normalizeItem elements)).
  set (out := defineOwn "items" (JArray kept) (copyDataProperties [] (JObject vprops))).
  assert (Hnd : NoDup (keys out)) by apply defineOwn_NoDup, copyDataProperties_NoDup.
  assert (Hget : getOwn "items" out = Some (JArray kept)) by apply defineOwn_get.
  destruct (normalizeVault_cases (JObject out))
    as [(_ & [Hnone | (i & Hi & Hfalsy)]) | [(el & Hi & Heq') | (i & Hi & _ & Hnot & _)]];
    cbn [getProperty] in *; try congruence.
  - rewrite Hget in Hi. injection Hi as <-. discriminate.
  - rewrite Hget in Hi. injection Hi as <-. rewrite Heq'.
    rewrite copyDataProperties_object by assumption.
    assert (Hsame : filter (fun item => negb (isNull item)) (map normalizeItem kept) = kept).
    { assert (Hfix : forall x, In x kept -> normalizeItem x = x /\ isNull x = false).
      { intros x Hx. destruct (in_normalized_items x elements Hx) as (e & He & -> & Hkept).
        split.
        - apply normalizeItem_twice. intros ps Hocc. apply Hdistinct.
          eapply occurs_prop; [exact (getOwn_in _ _ _ Hvget) |].
          eapply occurs_item; eassumption.
        - destruct (normalizeItem e); try reflexivity. now destruct Hkept. }
      clearbody kept. clear - Hfix. induction kept as [| x kept IH]; [reflexivity |].
      simpl. destruct (Hfix x (or_introl eq_refl)) as (-> & ->). simpl.
      rewrite IH; [reflexivity |]. intros y Hy. apply Hfix. now right. }
    rewrite Hsame. now rewrite (defineOwn_same _ _ _ Hget).
Qed.

Lemma indexed_in {A : Type} (f : A -> json) (l : list A) (i : nat) (k : string) (v : json) :
  In (k, v) (indexed f l i) -> exists a, In a l /\ v = f a.
Proof.
  revert i. induction l as [| a l IH]; intros i; simpl; [intros [] |].
  intros [[= _ <-] | Hin]; [exists a; auto |].
  destruct (IH _ Hin) as (b & Hb & ->). exists b. auto.
Qed.

(** The values of the own properties of a value have distinct keys when the
    value has. *)
Lemma ownEntries_distinctKeys (v : json) (k : string) (w : json) :
  distinctKeys v -> In (k, w) (ownEntries v) -> distinctKeys w.
Proof.
  intros Hdistinct Hin ps Hocc. destruct v; simpl in Hin; try destruct Hin.
  - destruct (indexed_in _ _ _ _ _ Hin) as (c & _ & ->). inversion Hocc.
  - destruct (indexed_in _ _ _ _ _ Hin) as (item & Hitem & ->).
    apply Hdistinct. eapply occurs_item; eassumption.
  - apply Hdistinct. eapply occurs_prop; eassumption.
Qed.

(** The loop of [normalizeData] over vaults that are all normalized, with
    fresh names: it appends them as they are. *)
Lemma foldM_vaults_stable :
  forall (entries normalized : list (string * json)),
    NoDup (keys normalized ++ keys entries) -> ~ In "__proto__" (keys entries) ->
    (forall id vault, In (id, vault) entries -> normalizeVault vault = Ok vault) ->
    foldM normalizeVaultEntry entries normalized = Ok (normalized ++ entries).
Proof.
  induction entries as [| [id vault] entries IH]; intros normalized Hnd Hproto Hall.
  - simpl. now rewrite app_nil_r.
  - rewrite foldM_cons. unfold normalizeVaultEntry at 1. cbn [fst snd].
    rewrite (Hall id vault (or_introl eq_refl)).
    cbn [bind]. simpl in Hnd, Hproto.
    rewrite assign_fresh.
    + rewrite IH.
      * now rewrite <- app_assoc.
      * rewrite keys_app. simpl. now rewrite <- app_assoc.
      * intro Hin. apply Hproto. now right.
      * intros i v Hin. apply (Hall i v). now right.
    + intro Heq. apply Hproto. now left.
    + apply NoDup_remove_2 in Hnd. intro Hin. apply Hnd. apply in_or_app. now left.
Qed.

(** X21.  [normalizeData] is idempotent on a document whose objects have
    distinct keys: when it returns a document, normalizing that document
    returns it unchanged. *)
Theorem normalizeData_idempotent (data out : json) :
  distinctKeys data -> normalizeData data = Ok out -> normalizeData out = Ok out.
Proof.
  intros Hdistinct Hrun. unfold normalizeData in Hrun.
  destruct (getProperty data "vaults") as [vaults |] eqn:Hvaults.
  2:{ assert (out = data) by (destruct (negb (truthy data)); now injection Hrun).
      subst out. unfold normalizeData. rewrite Hvaults.
      now destruct (negb (truthy data)). }
  destruct (getProperty_object _ _ _ Hvaults) as (dprops & -> & Hget & _).
  cbn [truthy negb] in Hrun.
  destruct (truthy vaults) eqn:Htruthy; cbn [negb] in Hrun.
  2:{ injection Hrun as <-. unfold normalizeData. cbn [truthy negb getProperty].
      now rewrite Hget, Htruthy. }
  bind_inv Hrun. injection Hrun as <-. rename a into normalized.
  assert (Hdprops : NoDup (keys dprops)) by (apply Hdistinct; constructor).
  assert (Hvdistinct : distinctKeys vaults).
  { intros ps Hocc. apply Hdistinct.
    eapply occurs_prop; [exact (getOwn_in _ _ _ Hget) | exact Hocc]. }
  assert (Hinv : NoDup (keys normalized) /\ ~ In "__proto__" (keys normalized) /\
                 Forall (fun entry => normalizeVault (snd entry) = Ok (snd entry)) normalized).
  { apply (@foldM_invariant _ _
             (fun acc => NoDup (keys acc) /\ ~ In "__proto__" (keys acc) /\
                         Forall (fun entry => normalizeVault (snd entry) = Ok (snd entry)) acc)
             normalizeVaultEntry (ownEntries vaults) [] normalized); [| | exact Ha].
    - intros [id vault] t t' Hin (Hnd & Hproto & Hall) Hstep.
      unfold normalizeVaultEntry in Hstep. cbn [fst snd] in Hstep.
      bind_inv Hstep. injection Hstep as <-.
      split; [now apply assign_NoDup |]. split; [now apply assign_no_proto |].
      apply assign_Forall; [| exact Hall]. cbn [snd].
      apply (normalizeVault_twice vault); [| exact Ha0].
      exact (ownEntries_distinctKeys vaults id vault Hvdistinct Hin).
    - split; [constructor |]. split; [intros [] | constructor]. }
  destruct Hinv as (Hnd & Hproto & Hstable).
  rewrite copyDataProperties_object by assumption.
  set (props' := defineOwn "vaults" (JObject normalized) dprops).
  assert (Hnd' : NoDup (keys props')) by now apply defineOwn_NoDup.
  assert (Hget' : getOwn "vaults" props' = Some (JObject normalized)) by apply defineOwn_get.
  unfold normalizeData. cbn [truthy negb getProperty]. rewrite Hget'. cbn [truthy negb ownEntries].
  rewrite (foldM_vaults_stable normalized []); cbn [app bind].
  - rewrite copyDataProperties_object by assumption.
    now rewrite (defineOwn_same _ _ _ Hget').
  - exact Hnd.
  - exact Hproto.
  - intros id vault Hin. rewrite Forall_forall in Hstable. exact (Hstable (id, vault) Hin).
Qed.

(** A document with one vault that holds a login and an alias. *)
Lemma normalizeData_idempotent_witness :
  normalizeData
    (JObject [("vaults",
               JObject [("v1",
                         JObject [("items",
                                   JArray [JObject [("data", JObject [("type", JString "login");
                                                                      ("extraFields", JArray [])])]])])])])
  = Ok (JObject [("vaults",
                  JObject [("v1",
                            JObject [("items",
                                      JArray [JObject [("data", JObject [("type", JString "login");
                                                                         ("extraFields", JArray [])])]])])])]).
Proof.
  apply (normalizeData_idempotent
           (JObject [("vaults",
                      JObject [("v1",
                                JObject [("items",
                                          JArray [JObject [("data", JObject [("type", JString "login")])];
                                                  JObject [("data", JObject [("type", JString "alias")])]])])])])).
  - apply distinctKeysb_sound. reflexivity.
  - vm_compute. reflexivity.
Defined.

(** The loop of [normalizeData] over vaults with fresh names: it appends one
    normalized vault for every vault, under the same name. *)
Lemma foldM_vaults_results :
  forall (entries normalized out : list (string * json)),
    NoDup (keys normalized ++ keys entries) -> ~ In "__proto__" (keys entries) ->
    foldM normalizeVaultEntry entries normalized = Ok out ->
    exists results,
      out = normalized ++ results /\
      Forall2 (fun entry result =>
                 fst result = fst entry /\ normalizeVault (snd entry) = Ok (snd result))
              entries results.
Proof.
  induction entries as [| [id vault] entries IH]; intros normalized out Hnd Hproto H.
  - injection H as <-. exists []. split; [now rewrite app_nil_r | constructor].
  - rewrite foldM_cons in H. bind_inv H. unfold normalizeVaultEntry in Ha.
    cbn [fst snd] in Ha. bind_inv Ha. injection Ha as <-. simpl in Hnd, Hproto.
    rewrite assign_fresh in H.
    + assert (Hnd' : NoDup (keys (normalized ++ [(id, a0)]) ++ keys entries)).
      { rewrite keys_app. simpl. now rewrite <- app_assoc. }
      destruct (IH (normalized ++ [(id, a0)]) out Hnd'
                   (fun Hin => Hproto (or_intror Hin)) H) as (results & -> & Hall).
      exists ((id, a0) :: results). split; [now rewrite <- app_assoc |].
      constructor; [split; [reflexivity | exact Ha0] | exact Hall].
    + intro Heq. apply Hproto. now left.
    + apply NoDup_remove_2 in Hnd. intro Hin. apply Hnd. apply in_or_app. now left.
Qed.

Lemma Forall2_results_keys (entries results : list (string * json)) :
  Forall2 (fun entry result =>
             fst result = fst entry /\ normalizeVault (snd entry) = Ok (snd result))
          entries results ->
  keys results = keys entries /\
  forall id vault, In (id, vault) entries ->
    exists vault', normalizeVault vault = Ok vault' /\ In (id, vault') results.
Proof.
  induction 1 as [| [id vault] [id' vault'] entries results (Hid & Hrun) _ (Hkeys & Hin)];
    [split; [reflexivity | intros id vault []] |].
  simpl in Hid, Hrun. subst id'. split; [simpl; now rewrite Hkeys |].
  intros i v [[= <- <-] | Hmem].
  - exists vault'. split; [exact Hrun | now left].
  - destruct (Hin i v Hmem) as (v' & Hv & Hv'). exists v'. split; [exact Hv | now right].
Qed.

(** X22.  A document with distinct keys whose [vaults] is an object with
    distinct vault names, none of them ["__proto__"]: when [normalizeData]
    returns, the result has the other properties of the document as they
    were, and its [vaults] has the same names in the same order, each holding
    what [normalizeVault] returns for the vault of that name. *)
Theorem normalizeData_keeps_vaults (dprops vprops : list (string * json)) (out : json) :
  NoDup (keys dprops) -> getOwn "vaults" dprops = Some (JObject vprops) ->
  NoDup (keys vprops) -> ~ In "__proto__" (keys vprops) ->
  normalizeData (JObject dprops) = Ok out ->
  (forall k, k <> "vaults" -> getProperty out k = getOwn k dprops) /\
  exists normalized,
    getProperty out "vaults" = Some (JObject normalized) /\
    keys normalized = keys vprops /\
    forall id vault, In (id, vault) vprops ->
      exists vault', normalizeVault vault = Ok vault' /\ getOwn id normalized = Some vault'.
Proof.
  intros Hdprops Hget Hvprops Hproto Hrun.
  unfold normalizeData in Hrun. cbn [truthy negb getProperty] in Hrun.
  rewrite Hget in Hrun. cbn [truthy negb ownEntries] in Hrun.
  bind_inv Hrun. injection Hrun as <-.
  destruct (foldM_vaults_results vprops [] a Hvprops Hproto Ha) as (results & -> & Hall).
  destruct (Forall2_results_keys vprops results Hall) as (Hkeys & Hin).
  rewrite copyDataProperties_object by assumption. cbn [getProperty app]. split.
  - intros k Hk. now apply defineOwn_get_other.
  - exists results. rewrite defineOwn_get. split; [reflexivity |]. split; [exact Hkeys |].
    intros id vault Hmem. destruct (Hin id vault Hmem) as (vault' & Hv & Hv').
    exists vault'. split; [exact Hv |]. apply in_getOwn; [now rewrite Hkeys | exact Hv'].
Qed.

(** A document with a version and two vaults. *)
Lemma normalizeData_keeps_vaults_witness :
  getProperty
    (JObject [("version", JNumber 1);
              ("vaults", JObject [("b", JObject [("items", JArray [])]); ("a", JNull)])])
    "version"
  = getOwn "version"
      [("version", JNumber 1);
       ("vaults", JObject [("b", JObject [("items", JArray [JNull])]); ("a", JNull)])].
Proof.
  apply (proj1 (normalizeData_keeps_vaults
                  [("version", JNumber 1);
                   ("vaults", JObject [("b", JObject [("items", JArray [JNull])]); ("a", JNull)])]
                  [("b", JObject [("items", JArray [JNull])]); ("a", JNull)]
                  (JObject [("version", JNumber 1);
                            ("vaults", JObject [("b", JObject [("items", JArray [])]);
                                                ("a", JNull)])])
                  ltac:(apply distinct_NoDup; reflexivity) eq_refl
                  ltac:(apply distinct_NoDup; reflexivity)
                  ltac:(simpl; intuition discriminate)
                  ltac:(vm_compute; reflexivity))).
  discriminate.
Defined.

(** X23.  The [vaults] object of a document that [normalizeData] has
    rebuilt has distinct names and none named ["__proto__"]: the assignment
    [normalizedVaults[vaultId] = ...] creates no own property of that name,
    so a vault of that name in the input is not in the result. *)
Theorem normalizeData_loses_proto_vault (data out vaults : json)
        (normalized : list (string * json)) :
  getProperty data "vaults" = Some vaults -> truthy vaults = true ->
  normalizeData data = Ok out ->
  getProperty out "vaults" = Some (JObject normalized) ->
  NoDup (keys normalized) /\ ~ In "__proto__" (keys normalized).
Proof.
  intros Hvaults Htruthy Hrun Hout. unfold normalizeData in Hrun.
  destruct (getProperty_object _ _ _ Hvaults) as (dprops & -> & Hget & _).
  cbn [truthy negb getProperty] in Hrun. rewrite Hget, Htruthy in Hrun. cbn [negb] in Hrun.
  bind_inv Hrun. injection Hrun as <-. cbn [getProperty] in Hout.
  rewrite defineOwn_get in Hout. injection Hout as <-.
  apply (@foldM_invariant _ _
           (fun acc => NoDup (keys acc) /\ ~ In "__proto__" (keys acc))
           normalizeVaultEntry (ownEntries vaults) [] a); [| | exact Ha].
  - intros [id vault] t t' _ (Hnd & Hproto) Hstep. unfold normalizeVaultEntry in Hstep.
    bind_inv Hstep. injection Hstep as <-.
    split; [now apply assign_NoDup | now apply assign_no_proto].
  - split; [constructor | intros []].
Qed.

(** A document with a vault named ["__proto__"] beside another. *)
Lemma normalizeData_loses_proto_vault_witness :
  NoDup (keys [("v1", JNull)]) /\ ~ In "__proto__" (keys [("v1", JNull)]).
Proof.
  apply (normalizeData_loses_proto_vault
           (JObject [("vaults", JObject [("__proto__", JObject [("items", JArray [])]);
                                         ("v1", JNull)])])
           (JObject [("vaults", JObject [("v1", JNull)])])
           (JObject [("__proto__", JObject [("items", JArray [])]); ("v1", JNull)])
           [("v1", JNull)]).
  - reflexivity.
  - reflexivity.
  - vm_compute. reflexivity.
  - reflexivity.
Defined.

(** X24.  When the configuration file cannot be read, [loadConfig] returns
    the default configuration, whatever [JSON.parse] would do. *)
Theorem loadConfig_defaults_when_unreadable
        (readFileSync : string -> Result string)
        (JSON_parse : string -> Result UserConfig) (path : string) (e : Error) :
  readFileSync path = Throw e ->
  loadConfig readFileSync JSON_parse (Some path) = DEFAULT_CONFIG.
Proof.
  intro Hread. unfold loadConfig. destruct path; [reflexivity |].
  rewrite Hread. reflexivity.
Qed.

(** A file system with one file, asked for another. *)
Lemma loadConfig_defaults_when_unreadable_witness :
  loadConfig (oneFile "config.json" keysFile)
             (parsesTo keysFile (Ok (onlySensitiveKeys ["foo"])))
             (Some "other.json") = DEFAULT_CONFIG.
Proof.
  apply (loadConfig_defaults_when_unreadable
           (oneFile "config.json" keysFile)
           (parsesTo keysFile (Ok (onlySensitiveKeys ["foo"])))
           "other.json" SystemError).
  reflexivity.
Defined.
